(** * ffmpeg/nodes.py: streams, nodes and filter descriptors

    A shallow embedding of [ffmpeg/nodes.py] and statements about it.

    Python objects are modelled by the values the module manipulates:
    - [Atom]: [None], an [int] or a [str]; these are the labels, selectors,
      dictionary keys and filter parameters that occur;
    - [dict K V]: an insertion-ordered dictionary, an association list whose
      keys are pairwise distinct, with Python's [d[k] = v], [pop], [update];
    - [Result A]: a call either returns a value or raises an exception;
    - [Method A]: a method of a node that may mutate [self]; the state that
      comes out is the state of [self] when the call returned or raised.

    A node holds its upstream nodes by value: the statements below are about
    one node and the dictionary it stores, never about a second reference to
    an upstream node that is mutated in between.  Strings are sequences of
    8-bit characters compared by code, which is Python's order on [str]. *)

From Stdlib Require Import List String Ascii ZArith NArith Lia Bool.
From Stdlib Require Import Permutation Sorted Decimal DecimalString.
Import ListNotations.

Local Open Scope string_scope.
Local Open Scope list_scope.
Local Open Scope Z_scope.

Set Warnings "-register-all".

(* ================================================================== *)
(** ** Python values, exceptions *)

Inductive Atom : Type :=
| ANone
| AInt (z : Z)
| AStr (s : string).

Definition atom_eqb (a b : Atom) : bool :=
  match a, b with
  | ANone, ANone => true
  | AInt x, AInt y => Z.eqb x y
  | AStr x, AStr y => String.eqb x y
  | _, _ => false
  end.

(** [x is None] / [x is not None]. *)
Definition is_None (a : Atom) : bool :=
  match a with ANone => true | _ => false end.

(** [str(x)]. *)
Definition py_str (a : Atom) : string :=
  match a with
  | ANone => "None"
  | AInt z => NilZero.string_of_int (Z.to_int z)
  | AStr s => s
  end.

(** The texts of the exceptions the module raises. *)
Inductive Message : Type :=
| ExpectedUpstreamNode
| ExpectedStream
| ExpectedIncomingStream
| ExpectedAtLeast (min_inputs : Z) (got : Z)
| ExpectedAtMost (max_inputs : Z) (got : Z)
| InvalidSyntax.

Inductive Exception : Type :=
| TypeError (m : Message)
| ValueError (m : Message)
| UnboundLocalError (variable : string)
| AttributeError (attribute : string).

(** The error kinds of the specification, as the exceptions that carry
    them: TypeMismatch is a [TypeError]; ArityError is the [ValueError] of
    the input-count check; InvalidUsage is the [ValueError] of the stream
    index operation. *)
Definition is_TypeMismatch (e : Exception) : bool :=
  match e with TypeError _ => true | _ => false end.

Definition is_ArityError (e : Exception) : bool :=
  match e with
  | ValueError (ExpectedAtLeast _ _) | ValueError (ExpectedAtMost _ _) => true
  | _ => false
  end.

Definition is_InvalidUsage (e : Exception) : bool :=
  match e with ValueError InvalidSyntax => true | _ => false end.

Inductive Result (A : Type) : Type :=
| Ok (a : A)
| Raise (e : Exception).

Arguments Ok {A} a.
Arguments Raise {A} e.

Definition bind {A B : Type} (r : Result A) (k : A -> Result B) : Result B :=
  match r with
  | Ok a => k a
  | Raise e => Raise e
  end.

Declare Scope result_scope.
Delimit Scope result_scope with result.

Notation "x <- e ;; k" := (bind e (fun x => k))
  (at level 100, e at next level, right associativity) : result_scope.
Notation "e ;;; k" := (bind e (fun _ => k))
  (at level 100, right associativity) : result_scope.

(* ================================================================== *)
(** ** Insertion-ordered dictionaries *)

(** Dictionary keys are compared with [==]. *)
Class PyKey (K : Type) : Type := key_eqb : K -> K -> bool.

#[export] Instance PyKey_Atom : PyKey Atom := atom_eqb.
#[export] Instance PyKey_string : PyKey string := String.eqb.

(** On the keys that occur, [==] holds of equal values only. *)
Class PyKeyLaws (K : Type) `{PyKey K} : Prop :=
  key_eqb_eq : forall a b : K, key_eqb a b = true <-> a = b.

Definition dict (K V : Type) : Type := list (K * V).

Section Dict.
Context {K V : Type} `{PyKey K}.

(** [d.get(k)] *)
Fixpoint dict_get (d : dict K V) (k : K) : option V :=
  match d with
  | [] => None
  | (k', v) :: rest => if key_eqb k k' then Some v else dict_get rest k
  end.

(** [k in d] *)
Definition dict_mem (k : K) (d : dict K V) : bool :=
  match dict_get d k with Some _ => true | None => false end.

(** [d[k] = v]: an existing key keeps its place, a new key goes last. *)
Fixpoint dict_set (d : dict K V) (k : K) (v : V) : dict K V :=
  match d with
  | [] => [(k, v)]
  | (k', v') :: rest =>
      if key_eqb k k' then (k', v) :: rest else (k', v') :: dict_set rest k v
  end.

(** [d.pop(k)] for a key that is present (the value is not used). *)
Fixpoint dict_pop (d : dict K V) (k : K) : dict K V :=
  match d with
  | [] => []
  | (k', v') :: rest =>
      if key_eqb k k' then rest else (k', v') :: dict_pop rest k
  end.

(** [d.update(other)] *)
Definition dict_update (d other : dict K V) : dict K V :=
  fold_left (fun acc kv => dict_set acc (fst kv) (snd kv)) other d.

(** [dict(items)] and [OrderedDict(items)] *)
Definition dict_of_items (items : list (K * V)) : dict K V :=
  dict_update [] items.

Definition dict_keys (d : dict K V) : list K := map fst d.
Definition dict_values (d : dict K V) : list V := map snd d.

(** [len(d)] *)
Definition len (d : dict K V) : Z := Z.of_nat (List.length d).

End Dict.

(** [enumerate(l)], with the positions as dictionary keys. *)
Fixpoint enumerate_from {V : Type} (i : Z) (l : list V) : list (Atom * V) :=
  match l with
  | [] => []
  | x :: rest => (AInt i, x) :: enumerate_from (i + 1) rest
  end.

Definition enumerate {V : Type} (l : list V) : list (Atom * V) :=
  enumerate_from 0 l.

(* ================================================================== *)
(** ** Nodes and streams *)

Inductive NodeClass : Type :=
| InputNode | FilterNode | SourceNode | OutputNode | MergeOutputsNode
| GlobalNode.

Inductive StreamClass : Type :=
| FilterableStream | OutputStream.

Definition NodeClass_eqb (a b : NodeClass) : bool :=
  match a, b with
  | InputNode, InputNode | FilterNode, FilterNode | SourceNode, SourceNode
  | OutputNode, OutputNode | MergeOutputsNode, MergeOutputsNode
  | GlobalNode, GlobalNode => true
  | _, _ => false
  end.

Definition StreamClass_eqb (a b : StreamClass) : bool :=
  match a, b with
  | FilterableStream, FilterableStream | OutputStream, OutputStream => true
  | _, _ => false
  end.

(** Modelled from the spec: the base class [dag.KwargReprNode] is not part of
    the given sources; as the specification says of the repr substrate, it
    stores the operation name, the positional and named parameters and the
    incoming edge map it is given, and [incoming_edge_map] hands out the
    stored dictionary itself.  The other four fields are the private
    attributes [Node.__init__] sets. *)
Inductive Node : Type := Build_Node {
  node_class : NodeClass;
  name : string;
  args : list Atom;
  kwargs : dict string Atom;
  incoming_edge_map : dict Atom (Node * Atom * Atom);
  outgoing_stream_type : StreamClass;
  incoming_stream_types : list StreamClass;
  min_inputs : option Z;
  max_inputs : option Z
}.

(** An incoming edge: (upstream node, upstream label, upstream selector). *)
Definition Edge : Type := (Node * Atom * Atom)%type.

Record Stream : Type := Build_Stream {
  stream_class : StreamClass;
  node : Node;
  label : Atom;
  selector : Atom
}.

(** What a caller may put where a stream is expected. *)
Inductive Value : Type :=
| VStream (s : Stream)
| VAtom (a : Atom).

(** The argument [stream_spec]. *)
Inductive StreamSpec : Type :=
| SpecNone
| SpecStream (s : Stream)
| SpecList (l : list Value)
| SpecTuple (l : list Value)
| SpecDict (d : dict Atom Value)
| SpecInt (z : Z)
| SpecStr (s : string).

(** [isinstance(obj, cls)] for nodes and for stream-spec values. *)
Definition node_isinstance (n : Node) (c : NodeClass) : bool :=
  NodeClass_eqb (node_class n) c.

Definition value_isinstance (v : Value) (c : StreamClass) : bool :=
  match v with
  | VStream s => StreamClass_eqb (stream_class s) c
  | VAtom _ => false
  end.

Fixpoint _is_of_types {O T : Type} (isinstance : O -> T -> bool) (obj : O)
  (types : list T) : bool :=
  match types with
  | [] => false
  | stream_type :: rest =>
      if isinstance obj stream_type then true
      else _is_of_types isinstance obj rest
  end.

(* ------------------------------------------------------------------ *)
(** *** class Stream *)

(** [Stream.__init__]; [cls] is the class being instantiated. *)
Definition Stream__init__ (cls : StreamClass) (upstream_node : Node)
  (upstream_label : Atom) (node_types : list NodeClass)
  (upstream_selector : Atom) : Result Stream :=
  if negb (_is_of_types node_isinstance upstream_node node_types) then
    Raise (TypeError ExpectedUpstreamNode)
  else
    Ok {| stream_class := cls;
          node := upstream_node;
          label := upstream_label;
          selector := upstream_selector |}.

Definition FilterableStream__init__ (upstream_node : Node)
  (upstream_label upstream_selector : Atom) : Result Stream :=
  Stream__init__ FilterableStream upstream_node upstream_label
    [InputNode; FilterNode; SourceNode] upstream_selector.

Definition OutputStream__init__ (upstream_node : Node)
  (upstream_label upstream_selector : Atom) : Result Stream :=
  Stream__init__ OutputStream upstream_node upstream_label
    [OutputNode; GlobalNode; MergeOutputsNode] upstream_selector.

(** Calling a stream class. *)
Definition new_stream (cls : StreamClass) :
  Node -> Atom -> Atom -> Result Stream :=
  match cls with
  | FilterableStream => FilterableStream__init__
  | OutputStream => OutputStream__init__
  end.

(** [Node.stream(label=None, select=None)] *)
Definition Node_stream (self : Node) (label select : Atom) : Result Stream :=
  new_stream (outgoing_stream_type self) self label select.

(** What is written between the brackets of [x[...]]: a slice
    [start:stop:step] (an omitted bound is [None]) or any other object. *)
Inductive Index : Type :=
| slice (start stop step : Atom)
| index (a : Atom).

(** [Stream.__getitem__] *)
Definition Stream__getitem__ (self : Stream) (item : Index) : Result Stream :=
  match item with
  | slice start stop _ =>
      if negb (is_None start) then Raise (ValueError InvalidSyntax)
      else Node_stream (node self) ANone stop
  | index _ => Raise (ValueError InvalidSyntax)
  end.

(** [Node.__getitem__] *)
Definition Node__getitem__ (self : Node) (item : Index) : Result Stream :=
  match item with
  | slice start stop _ => Node_stream self start stop
  | index a => Node_stream self a ANone
  end.

(* ------------------------------------------------------------------ *)
(** *** Stream maps *)

Definition get_stream_map (stream_spec : StreamSpec)
  : Result (dict Atom Value) :=
  match stream_spec with
  | SpecNone => Ok []
  | SpecStream s => Ok [(ANone, VStream s)]
  | SpecList l | SpecTuple l => Ok (dict_of_items (enumerate l))
  | SpecDict d => Ok d
  | SpecInt _ | SpecStr _ => Raise (UnboundLocalError "stream_map")
  end.

Fixpoint get_stream_map_nodes_loop (values : list Value) (nodes : list Node)
  : Result (list Node) :=
  match values with
  | [] => Ok nodes
  | VStream s :: rest => get_stream_map_nodes_loop rest (nodes ++ [node s])
  | VAtom _ :: _ => Raise (TypeError ExpectedStream)
  end.

Definition get_stream_map_nodes (stream_map : dict Atom Value)
  : Result (list Node) :=
  get_stream_map_nodes_loop (dict_values stream_map) [].

Definition get_stream_spec_nodes (stream_spec : StreamSpec)
  : Result (list Node) :=
  (stream_map <- get_stream_map stream_spec ;;
   get_stream_map_nodes stream_map)%result.

(* ------------------------------------------------------------------ *)
(** *** class Node *)

(** [Node.__check_input_len] *)
Definition __check_input_len {V : Type} (stream_map : dict Atom V)
  (min_inputs max_inputs : option Z) : Result unit :=
  let check_max :=
    match max_inputs with
    | Some hi =>
        if len stream_map >? hi then
          Raise (ValueError (ExpectedAtMost hi (len stream_map)))
        else Ok tt
    | None => Ok tt
    end in
  match min_inputs with
  | Some lo =>
      if len stream_map <? lo then
        Raise (ValueError (ExpectedAtLeast lo (len stream_map)))
      else check_max
  | None => check_max
  end.

(** The loop of [Node.__check_input_types] over [stream_map.values()]. *)
Fixpoint check_input_types_loop (values : list Value)
  (incoming_stream_types : list StreamClass) : Result unit :=
  match values with
  | [] => Ok tt
  | stream :: rest =>
      if negb (_is_of_types value_isinstance stream incoming_stream_types)
      then Raise (TypeError ExpectedIncomingStream)
      else check_input_types_loop rest incoming_stream_types
  end.

Definition __check_input_types (stream_map : dict Atom Value)
  (incoming_stream_types : list StreamClass) : Result unit :=
  check_input_types_loop (dict_values stream_map) incoming_stream_types.

(** The loop of [Node.__get_incoming_edge_map] over [stream_map.items()];
    reading [upstream.node] off something that is not a stream raises. *)
Fixpoint get_incoming_edge_map_loop (items : list (Atom * Value))
  (incoming_edge_map : dict Atom Edge) : Result (dict Atom Edge) :=
  match items with
  | [] => Ok incoming_edge_map
  | (downstream_label, VStream upstream) :: rest =>
      get_incoming_edge_map_loop rest
        (dict_set incoming_edge_map downstream_label
           (node upstream, label upstream, selector upstream))
  | (_, VAtom _) :: _ => Raise (AttributeError "node")
  end.

Definition __get_incoming_edge_map (stream_map : dict Atom Value)
  : Result (dict Atom Edge) :=
  get_incoming_edge_map_loop stream_map [].

(** [Node.__init__]; [cls] is the class being instantiated. *)
Definition Node__init__ (cls : NodeClass) (stream_spec : StreamSpec)
  (name : string) (incoming_stream_types : list StreamClass)
  (outgoing_stream_type : StreamClass) (min_inputs max_inputs : option Z)
  (args : list Atom) (kwargs : dict string Atom) : Result Node :=
  (stream_map <- get_stream_map stream_spec ;;
   __check_input_len stream_map min_inputs max_inputs ;;;
   __check_input_types stream_map incoming_stream_types ;;;
   incoming_edge_map <- __get_incoming_edge_map stream_map ;;
   Ok {| node_class := cls;
         name := name;
         args := args;
         kwargs := kwargs;
         incoming_edge_map := incoming_edge_map;
         outgoing_stream_type := outgoing_stream_type;
         incoming_stream_types := incoming_stream_types;
         min_inputs := min_inputs;
         max_inputs := max_inputs |})%result.

(** The node variants. *)
Definition InputNode__init__ (name : string) (args : list Atom)
  (kwargs : dict string Atom) : Result Node :=
  Node__init__ InputNode SpecNone name [] FilterableStream (Some 0) (Some 0)
    args kwargs.

Definition FilterNode__init__ (stream_spec : StreamSpec) (name : string)
  (max_inputs : option Z) (args : list Atom) (kwargs : dict string Atom)
  : Result Node :=
  Node__init__ FilterNode stream_spec name [FilterableStream] FilterableStream
    (Some 1) max_inputs args kwargs.

(** The default of [max_inputs] in [FilterNode.__init__]. *)
Definition FilterNode_default_max_inputs : option Z := Some 1.

Definition SourceNode__init__ (name : string) (args : list Atom)
  (kwargs : dict string Atom) : Result Node :=
  Node__init__ SourceNode SpecNone name [] FilterableStream (Some 0) (Some 0)
    args kwargs.

Definition OutputNode__init__ (stream : StreamSpec) (name : string)
  (args : list Atom) (kwargs : dict string Atom) : Result Node :=
  Node__init__ OutputNode stream name [FilterableStream] OutputStream
    (Some 0) None args kwargs.

Definition MergeOutputsNode__init__ (streams : StreamSpec) (name : string)
  : Result Node :=
  Node__init__ MergeOutputsNode streams name [OutputStream] OutputStream
    (Some 1) None [] [].

Definition GlobalNode__init__ (stream : StreamSpec) (name : string)
  (args : list Atom) (kwargs : dict string Atom) : Result Node :=
  Node__init__ GlobalNode stream name [OutputStream] OutputStream
    (Some 1) (Some 1) args kwargs.

(* ------------------------------------------------------------------ *)
(** *** Methods that mutate [self] *)

(** A method runs on the state of [self] and hands back the outcome
    together with the state [self] is left in, also when it raises. *)
Definition Method (A : Type) : Type := Node -> Result A * Node.

Definition mret {A : Type} (a : A) : Method A := fun self => (Ok a, self).

Definition mbind {A B : Type} (m : Method A) (k : A -> Method B) : Method B :=
  fun self =>
    match m self with
    | (Ok a, self') => k a self'
    | (Raise e, self') => (Raise e, self')
    end.

(** Read an attribute of [self]. *)
Definition attr {A : Type} (field : Node -> A) : Method A :=
  fun self => (Ok (field self), self).

(** A call that does not touch [self]. *)
Definition call {A : Type} (r : Result A) : Method A :=
  fun self => (r, self).

(** Mutate, in place, the dictionary [self.incoming_edge_map] refers to. *)
Definition mutate_incoming_edge_map (f : dict Atom Edge -> dict Atom Edge)
  : Method unit :=
  fun self =>
    (Ok tt,
     {| node_class := node_class self;
        name := name self;
        args := args self;
        kwargs := kwargs self;
        incoming_edge_map := f (incoming_edge_map self);
        outgoing_stream_type := outgoing_stream_type self;
        incoming_stream_types := incoming_stream_types self;
        min_inputs := min_inputs self;
        max_inputs := max_inputs self |}).

Declare Scope method_scope.
Delimit Scope method_scope with method.

Notation "x <- e ;; k" := (mbind e (fun x => k))
  (at level 100, e at next level, right associativity) : method_scope.
Notation "e ;;; k" := (mbind e (fun _ => k))
  (at level 100, right associativity) : method_scope.

(** [Node._add_streams] *)
Definition _add_streams (stream_spec : StreamSpec) : Method unit :=
  ((* Back up previous edges *)
   prev_edges <- attr (fun self => dict_values (incoming_edge_map self)) ;;
   (* Check new edges *)
   new_stream_map <- call (get_stream_map stream_spec) ;;
   types <- attr incoming_stream_types ;;
   call (__check_input_types new_stream_map types) ;;;
   (* Generate new edge map *)
   new_inc_edge_map <- call (__get_incoming_edge_map new_stream_map) ;;
   let new_edges := dict_values new_inc_edge_map in
   (* Rename all edges *)
   let new_edge_map := dict_of_items (enumerate (prev_edges ++ new_edges)) in
   (* Check new length *)
   lo <- attr min_inputs ;;
   hi <- attr max_inputs ;;
   call (__check_input_len new_edge_map lo hi) ;;;
   (* Overwrite old map *)
   has_None <- attr (fun self => dict_mem ANone (incoming_edge_map self)) ;;
   (if has_None : bool
    then mutate_incoming_edge_map (fun d => dict_pop d ANone)
    else mret tt) ;;;
   mutate_incoming_edge_map (fun d => dict_update d new_edge_map))%method.

(* ------------------------------------------------------------------ *)
(** *** Stream identity *)

Section StreamIdentity.

(** [hash(node)] is defined in [dag.py], [get_hash_int] in [_utils.py] and
    [hash] of a label and of the integer [__hash__] returns are Python
    built-ins; none of them is part of the given sources and the statements
    hold whatever functions they are. *)
Variable hash_node : Node -> Z.
Variable hash_label : Atom -> Z.
Variable get_hash_int : list Z -> Z.
Variable hash_int : Z -> Z.

(** [Stream.__hash__] *)
Definition Stream__hash__ (self : Stream) : Z :=
  get_hash_int [hash_node (node self); hash_label (label self)].

(** [hash(stream)]: the built-in applied to what [__hash__] returns. *)
Definition hash (s : Stream) : Z := hash_int (Stream__hash__ s).

(** [Stream.__eq__] *)
Definition Stream__eq__ (self other : Stream) : bool :=
  hash self =? hash other.

End StreamIdentity.

(* ------------------------------------------------------------------ *)
(** *** class FilterableNode *)

(** [c in chars] for a character and a string. *)
Fixpoint char_in (c : ascii) (chars : string) : bool :=
  match chars with
  | EmptyString => false
  | String c' rest => if Ascii.eqb c c' then true else char_in c rest
  end.

(** Modelled from the spec: [_utils.escape_chars] is not part of the given
    sources.  The specification of the escape function: for every character
    of the text that is a member of the charset, insert a backslash
    immediately before it; no other transformation. *)
Fixpoint escape_text (text chars : string) : string :=
  match text with
  | EmptyString => EmptyString
  | String c rest =>
      if char_in c chars then String "\" (String c (escape_text rest chars))
      else String c (escape_text rest chars)
  end.

(** Modelled from the spec: [escape_chars] receives the parameters as they
    were given to the node, among them the integer count of a fan-out
    operation, which the specification renders as [2]; a value that is not
    a string is escaped as its [str()]. *)
Definition escape_chars (text : Atom) (chars : string) : string :=
  escape_text (py_str text) chars.

(** [sorted(keys)]: a stable sort of strings by code point. *)
Fixpoint sorted_insert (x : string) (l : list string) : list string :=
  match l with
  | [] => [x]
  | y :: rest =>
      if String.leb x y then x :: y :: rest else y :: sorted_insert x rest
  end.

Definition sorted (l : list string) : list string :=
  fold_right sorted_insert [] l.

(** The two character sets of [_get_filter]: backslash, quote, equals,
    colon; and backslash, quote, brackets, comma, semicolon. *)
Definition param_chars : string := "\'=:".
Definition graph_chars : string := "\'[],;".

(** The local [args] of [_get_filter] after the fan-out test. *)
Definition filter_args {E : Type} (self : Node) (outgoing_edges : list E)
  : list Atom :=
  if String.eqb (name self) "split" || String.eqb (name self) "asplit"
  then [AInt (Z.of_nat (List.length outgoing_edges))]
  else args self.

(** The loop that fills [out_kwargs]. *)
Definition filter_out_kwargs (kwargs : dict string Atom) : dict string string :=
  fold_left
    (fun out_kwargs kv =>
       let k := escape_chars (AStr (fst kv)) param_chars in
       let v := escape_chars (snd kv) param_chars in
       dict_set out_kwargs k v)
    kwargs [].

(** ['{}={}'.format(k, out_kwargs[k])]; [k] is always one of the keys. *)
Definition kwarg_param (out_kwargs : dict string string) (k : string)
  : string :=
  match dict_get out_kwargs k with
  | Some v => (k ++ "=" ++ v)%string
  | None => (k ++ "=")%string
  end.

(** The locals [arg_params] and [kwarg_params]. *)
Definition filter_arg_params (args : list Atom) : list string :=
  let out_args := map (fun x => escape_chars x param_chars) args in
  map (fun v => escape_chars (AStr v) param_chars) out_args.

Definition filter_kwarg_params (kwargs : dict string Atom) : list string :=
  let out_kwargs := filter_out_kwargs kwargs in
  map (kwarg_param out_kwargs) (sorted (dict_keys out_kwargs)).

(** [FilterableNode._get_filter] *)
Definition _get_filter {E : Type} (self : Node) (outgoing_edges : list E)
  : string :=
  let args := filter_args self outgoing_edges in
  let kwargs := kwargs self in
  let arg_params := filter_arg_params args in
  let kwarg_params := filter_kwarg_params kwargs in
  let params := arg_params ++ kwarg_params in
  let params_text := escape_chars (AStr (name self)) param_chars in
  let params_text :=
    match params with
    | [] => params_text
    | _ :: _ => (params_text ++ "=" ++ String.concat ":" params)%string
    end in
  escape_chars (AStr params_text) graph_chars.


(* ================================================================== *)
(** ** Sample graphs *)

(** [self] with another incoming edge map, everything else as it was. *)
Definition with_incoming_edge_map (self : Node) (d : dict Atom Edge) : Node :=
  {| node_class := node_class self;
     name := name self;
     args := args self;
     kwargs := kwargs self;
     incoming_edge_map := d;
     outgoing_stream_type := outgoing_stream_type self;
     incoming_stream_types := incoming_stream_types self;
     min_inputs := min_inputs self;
     max_inputs := max_inputs self |}.

(** [InputNode('input', kwargs={'filename': f})] *)
Definition sample_input (filename : string) : Node :=
  {| node_class := InputNode;
     name := "input";
     args := [];
     kwargs := [("filename", AStr filename)];
     incoming_edge_map := [];
     outgoing_stream_type := FilterableStream;
     incoming_stream_types := [];
     min_inputs := Some 0;
     max_inputs := Some 0 |}.

(** [sample_input(f).stream()] *)
Definition sample_video (filename : string) : Stream :=
  {| stream_class := FilterableStream;
     node := sample_input filename;
     label := ANone;
     selector := ANone |}.

(** [OutputNode(sample_video('in.mp4'), 'output')] *)
Definition sample_output : Node :=
  {| node_class := OutputNode;
     name := "output";
     args := [];
     kwargs := [];
     incoming_edge_map := [(ANone, (sample_input "in.mp4", ANone, ANone))];
     outgoing_stream_type := OutputStream;
     incoming_stream_types := [FilterableStream];
     min_inputs := Some 0;
     max_inputs := None |}.

(** [sample_output.stream()] *)
Definition sample_out_stream : Stream :=
  {| stream_class := OutputStream;
     node := sample_output;
     label := ANone;
     selector := ANone |}.

(** [FilterNode(sample_video('in.mp4'), 'hflip')] *)
Definition sample_hflip : Node :=
  {| node_class := FilterNode;
     name := "hflip";
     args := [];
     kwargs := [];
     incoming_edge_map := [(ANone, (sample_input "in.mp4", ANone, ANone))];
     outgoing_stream_type := FilterableStream;
     incoming_stream_types := [FilterableStream];
     min_inputs := Some 1;
     max_inputs := Some 1 |}.

(** [FilterNode({'main': sample_video('in.mp4')}, 'overlay', max_inputs=None)] *)
Definition sample_overlay : Node :=
  {| node_class := FilterNode;
     name := "overlay";
     args := [];
     kwargs := [];
     incoming_edge_map := [(AStr "main", (sample_input "in.mp4", ANone, ANone))];
     outgoing_stream_type := FilterableStream;
     incoming_stream_types := [FilterableStream];
     min_inputs := Some 1;
     max_inputs := None |}.

(** [FilterNode(sample_video('in.mp4'), 'split', args=[3])] and its second
    output, [sample_split.stream(1)]. *)
Definition sample_split : Node :=
  {| node_class := FilterNode;
     name := "split";
     args := [AInt 3];
     kwargs := [];
     incoming_edge_map := [(ANone, (sample_input "in.mp4", ANone, ANone))];
     outgoing_stream_type := FilterableStream;
     incoming_stream_types := [FilterableStream];
     min_inputs := Some 1;
     max_inputs := Some 1 |}.

Definition sample_split_1 : Stream :=
  {| stream_class := FilterableStream;
     node := sample_split;
     label := AInt 1;
     selector := ANone |}.

(** The stream-spec shapes [get_stream_map] has a branch for. *)
Definition accepted_shape (stream_spec : StreamSpec) : bool :=
  match stream_spec with
  | SpecNone | SpecStream _ | SpecList _ | SpecTuple _ | SpecDict _ => true
  | SpecInt _ | SpecStr _ => false
  end.

(** The keys [0, 1, ..., n-1]. *)
Definition positions (n : nat) : list Atom :=
  map (fun i => AInt (Z.of_nat i)) (seq 0 n).

(** The incoming edge maps that construction from an absent specification,
    from one stream or from a sequence gives, and that attaching keeps:
    the keys are the positions in order, or there is the single unlabeled
    entry. *)
Definition positional_or_unlabeled (d : dict Atom Edge) : Prop :=
  d = enumerate (dict_values d) \/ exists e, d = [(ANone, e)].

(** The two incoming edges of the samples. *)
Definition edge_in : Edge := (sample_input "in.mp4", ANone, ANone).
Definition edge_b : Edge := (sample_input "b.mp4", ANone, ANone).

(** [FilterNode(sample_video('in.mp4'), 'subtitles', args=['C:/clip.srt'])]
    and the same file name given as a named parameter. *)
Definition sample_subtitles : Node :=
  {| node_class := FilterNode;
     name := "subtitles";
     args := [AStr "C:/clip.srt"];
     kwargs := [];
     incoming_edge_map := [(ANone, edge_in)];
     outgoing_stream_type := FilterableStream;
     incoming_stream_types := [FilterableStream];
     min_inputs := Some 1;
     max_inputs := Some 1 |}.

Definition sample_subtitles_kw : Node :=
  {| node_class := FilterNode;
     name := "subtitles";
     args := [];
     kwargs := [("filename", AStr "C:/clip.srt")];
     incoming_edge_map := [(ANone, edge_in)];
     outgoing_stream_type := FilterableStream;
     incoming_stream_types := [FilterableStream];
     min_inputs := Some 1;
     max_inputs := Some 1 |}.

(** [FilterNode(sample_video('in.mp4'), 'f', kwargs={'a=': 1, 'aA': 2})] *)
Definition sample_odd_keys : Node :=
  {| node_class := FilterNode;
     name := "f";
     args := [];
     kwargs := [("a=", AInt 1); ("aA", AInt 2)];
     incoming_edge_map := [(ANone, edge_in)];
     outgoing_stream_type := FilterableStream;
     incoming_stream_types := [FilterableStream];
     min_inputs := Some 1;
     max_inputs := Some 1 |}.

(** [FilterNode(sample_video('in.mp4'), 'scale', args=[640],
    kwargs={'height': 480, 'flags': 'bicubic'})] *)
Definition sample_scale : Node :=
  {| node_class := FilterNode;
     name := "scale";
     args := [AInt 640];
     kwargs := [("height", AInt 480); ("flags", AStr "bicubic")];
     incoming_edge_map := [(ANone, edge_in)];
     outgoing_stream_type := FilterableStream;
     incoming_stream_types := [FilterableStream];
     min_inputs := Some 1;
     max_inputs := Some 1 |}.

(** How [_get_filter] renders one positional parameter and one named
    parameter. *)
Definition positional_param (x : Atom) : string :=
  escape_chars (AStr (escape_chars x param_chars)) param_chars.

Definition escaped_key (kv : string * Atom) : string :=
  escape_chars (AStr (fst kv)) param_chars.

Definition named_param (kv : string * Atom) : string :=
  (escaped_key kv ++ "=" ++ escape_chars (snd kv) param_chars)%string.

(** No character of the text is in the parameter character set. *)
Fixpoint clean (text : string) : bool :=
  match text with
  | EmptyString => true
  | String c rest => negb (char_in c param_chars) && clean rest
  end.

(** [a] comes no later than [b] in the order of the keys as given. *)
Definition key_le (a b : string * Atom) : Prop :=
  String.leb (fst a) (fst b) = true.

(** The named parameters arranged by escaped key. *)
Fixpoint insert_item (x : string * Atom) (l : list (string * Atom))
  : list (string * Atom) :=
  match l with
  | [] => [x]
  | y :: rest =>
      if String.leb (escaped_key x) (escaped_key y) then x :: y :: rest
      else y :: insert_item x rest
  end.

Definition items_by_escaped_key (kwargs : dict string Atom)
  : list (string * Atom) :=
  fold_right insert_item [] kwargs.

(** [a] comes no later than [b] in the order of the escaped keys. *)
Definition escaped_key_le (a b : string * Atom) : Prop :=
  String.leb (escaped_key a) (escaped_key b) = true.

(* ================================================================== *)
(** ** Further definitions: the rest of the module *)

(** The triple [__get_incoming_edge_map] stores for a stream. *)
Definition edge_of (s : Stream) : Edge := (node s, label s, selector s).

(** The stream class whose [__init__] lists a node class among its
    [node_types]. *)
Definition accepting_stream_class (c : NodeClass) : StreamClass :=
  match c with
  | InputNode | FilterNode | SourceNode => FilterableStream
  | OutputNode | GlobalNode | MergeOutputsNode => OutputStream
  end.

(** The node is the result of one of the six variant constructors. *)
Definition variant_built (n : Node) : Prop :=
  (exists name args kwargs, InputNode__init__ name args kwargs = Ok n)
  \/ (exists spec name hi args kwargs,
        FilterNode__init__ spec name hi args kwargs = Ok n)
  \/ (exists name args kwargs, SourceNode__init__ name args kwargs = Ok n)
  \/ (exists spec name args kwargs,
        OutputNode__init__ spec name args kwargs = Ok n)
  \/ (exists spec name, MergeOutputsNode__init__ spec name = Ok n)
  \/ (exists spec name args kwargs,
        GlobalNode__init__ spec name args kwargs = Ok n).

(** The length of the stored map is within the node's own bounds. *)
Definition within_bounds (n : Node) : Prop :=
  (forall b, min_inputs n = Some b -> b <= len (incoming_edge_map n))
  /\ (forall b, max_inputs n = Some b -> len (incoming_edge_map n) <= b).

(** A stream map given as labelled streams. *)
Definition stream_items (items : list (Atom * Stream)) : dict Atom Value :=
  map (fun ks => (fst ks, VStream (snd ks))) items.

Definition edge_items (items : list (Atom * Stream)) : dict Atom Edge :=
  map (fun ks => (fst ks, edge_of (snd ks))) items.

(** Reading a descriptor the way the graph syntax is read: a backslash
    takes the next character literally; [unescaped_free chars false text]
    says that no character of [chars] stands in [text] without a backslash
    before it and that [text] does not end in a lone backslash. *)
Fixpoint unescaped_free (chars : string) (after_backslash : bool)
  (text : string) : bool :=
  match text with
  | EmptyString => negb after_backslash
  | String c rest =>
      if after_backslash then unescaped_free chars false rest
      else if Ascii.eqb c "\" then unescaped_free chars true rest
      else negb (char_in c chars) && unescaped_free chars false rest
  end.

(* ------------------------------------------------------------------ *)
(** *** Short display form *)

(** [os.path.basename] with [/] as separator: what follows the last
    slash, [p[p.rfind('/') + 1:]]. *)
Fixpoint basename (p : string) : string :=
  match p with
  | EmptyString => EmptyString
  | String c rest =>
      if Ascii.eqb c "/" then basename rest
      else if char_in "/" rest then basename rest
      else String c rest
  end.

(** What reading [short_repr] gives: the text, or the [KeyError] of
    [self.kwargs['filename']], or the [TypeError] of [basename] on a value
    that is no path. *)
Inductive ShortRepr : Type :=
| Repr (text : string)
| KeyError (key : string)
| NotAPath.

(** The getter of [InputNode.short_repr] and [OutputNode.short_repr]. *)
Definition short_repr (self : Node) : ShortRepr :=
  match dict_get (kwargs self) "filename" with
  | None => KeyError "filename"
  | Some (AStr path) => Repr (basename path)
  | Some _ => NotAPath
  end.

(* ------------------------------------------------------------------ *)
(** *** Operator registration *)

(** The classes a stream operator can be attached to: [Stream] and its two
    subclasses. *)
Inductive OperatorClass : Type :=
| StreamBase
| StreamSub (c : StreamClass).

Definition OperatorClass_eqb (a b : OperatorClass) : bool :=
  match a, b with
  | StreamBase, StreamBase => true
  | StreamSub x, StreamSub y => StreamClass_eqb x y
  | _, _ => false
  end.

Section Operators.

(** Python functions and their [__name__]. *)
Variable Func : Type.
Variable __name__ : Func -> string.

(** The attributes set on each class. *)
Definition ClassAttrs : Type := OperatorClass -> dict string Func.

(** [setattr(cls, name, value)] *)
Definition setattr (attrs : ClassAttrs) (cls : OperatorClass) (name : string)
  (value : Func) : ClassAttrs :=
  fun c =>
    if OperatorClass_eqb c cls then dict_set (attrs c) name value
    else attrs c.

(** [getattr(cls, name)] on the classes: the class itself, then its base
    [Stream]. *)
Definition getattr (attrs : ClassAttrs) (cls : OperatorClass) (name : string)
  : option Func :=
  match dict_get (attrs cls) name with
  | Some f => Some f
  | None =>
      match cls with
      | StreamBase => None
      | StreamSub _ => dict_get (attrs StreamBase) name
      end
  end.

(** [stream_operator(stream_classes, name)(func)]: the decorator sets the
    function on every class and returns it; [name] is [None], or a string
    that counts as absent when it is empty. *)
Definition stream_operator (stream_classes : list OperatorClass)
  (name : option string) (func : Func) (attrs : ClassAttrs)
  : Func * ClassAttrs :=
  let func_name :=
    match name with
    | None | Some EmptyString => __name__ func
    | Some n => n
    end in
  (func,
   fold_left (fun a stream_class => setattr a stream_class func_name func)
     stream_classes attrs).

(** The default of [stream_classes] in [stream_operator]. *)
Definition stream_operator_default_classes : list OperatorClass :=
  [StreamBase].

Definition filter_operator (name : option string)
  : Func -> ClassAttrs -> Func * ClassAttrs :=
  stream_operator [StreamSub FilterableStream] name.

Definition output_operator (name : option string)
  : Func -> ClassAttrs -> Func * ClassAttrs :=
  stream_operator [StreamSub OutputStream] name.

(** The attribute name a registration uses. *)
Definition operator_name (name : option string) (func : Func) : string :=
  match name with
  | None | Some EmptyString => __name__ func
  | Some n => n
  end.

End Operators.

Arguments setattr {Func} attrs cls name value.
Arguments getattr {Func} attrs cls name.
Arguments stream_operator {Func} __name__ stream_classes name func attrs.
Arguments filter_operator {Func} __name__ name _ _.
Arguments output_operator {Func} __name__ name _ _.
Arguments operator_name {Func} __name__ name func.

(** Two processable streams, one over each of two input nodes. *)
Definition sample_streams : list Stream :=
  [sample_video "a.mp4"; sample_video "b.mp4"].

(** [FilterNode({'main': sample_video('in.mp4')}, 'overlay')], with the
    default maximum of one input. *)
Definition sample_named_full : Node :=
  {| node_class := FilterNode;
     name := "overlay";
     args := [];
     kwargs := [];
     incoming_edge_map := [(AStr "main", edge_in)];
     outgoing_stream_type := FilterableStream;
     incoming_stream_types := [FilterableStream];
     min_inputs := Some 1;
     max_inputs := Some 1 |}.

(* ================================================================== *)
(** ** The samples are what the constructors build *)

Example sample_input_built :
  InputNode__init__ "input" [] [("filename", AStr "in.mp4")]
  = Ok (sample_input "in.mp4").
Proof. reflexivity. Qed.

Example sample_video_built :
  Node_stream (sample_input "in.mp4") ANone ANone = Ok (sample_video "in.mp4").
Proof. reflexivity. Qed.

Example sample_output_built :
  OutputNode__init__ (SpecStream (sample_video "in.mp4")) "output" [] []
  = Ok sample_output.
Proof. reflexivity. Qed.

Example sample_out_stream_built :
  Node_stream sample_output ANone ANone = Ok sample_out_stream.
Proof. reflexivity. Qed.

Example sample_hflip_built :
  FilterNode__init__ (SpecStream (sample_video "in.mp4")) "hflip"
    FilterNode_default_max_inputs [] []
  = Ok sample_hflip.
Proof. reflexivity. Qed.

Example sample_overlay_built :
  FilterNode__init__ (SpecDict [(AStr "main", VStream (sample_video "in.mp4"))])
    "overlay" None [] []
  = Ok sample_overlay.
Proof. reflexivity. Qed.

Example sample_split_built :
  FilterNode__init__ (SpecStream (sample_video "in.mp4")) "split"
    FilterNode_default_max_inputs [AInt 3] []
  = Ok sample_split.
Proof. reflexivity. Qed.

Example sample_split_1_built :
  Node__getitem__ sample_split (index (AInt 1)) = Ok sample_split_1.
Proof. reflexivity. Qed.

(* ================================================================== *)
(** ** Stream maps: which specifications are normalised *)

(** C10: [get_stream_map] returns a map exactly for the four accepted
    shapes (absent, one stream, a list or tuple, a dict); for any other
    value, such as a bare integer or string, no branch assigns [stream_map]
    and the [return] fails with [UnboundLocalError], which is neither a
    returned map nor a type-mismatch error. *)
Theorem get_stream_map_not_total (stream_spec : StreamSpec) :
  match get_stream_map stream_spec with
  | Ok _ => accepted_shape stream_spec = true
  | Raise e =>
      accepted_shape stream_spec = false
      /\ e = UnboundLocalError "stream_map"
      /\ is_TypeMismatch e = false
  end.
Proof.
  destruct stream_spec; simpl; auto.
Qed.

Lemma get_stream_map_int (z : Z) :
  get_stream_map (SpecInt z) = Raise (UnboundLocalError "stream_map").
Proof. reflexivity. Qed.

Lemma get_stream_map_str (s : string) :
  get_stream_map (SpecStr s) = Raise (UnboundLocalError "stream_map").
Proof. reflexivity. Qed.

(* ================================================================== *)
(** ** Stream identity *)

Section StreamIdentityFacts.
Variable hash_node : Node -> Z.
Variable hash_label : Atom -> Z.
Variable get_hash_int : list Z -> Z.
Variable hash_int : Z -> Z.

Local Notation "'hash_of'" :=
  (hash hash_node hash_label get_hash_int hash_int) (only parsing).
Local Notation "'eq_of'" :=
  (Stream__eq__ hash_node hash_label get_hash_int hash_int) (only parsing).

Lemma stream_hash_ignores_selector (c c' : StreamClass) (n : Node)
  (l sel sel' : Atom) :
  hash_of (Build_Stream c n l sel) = hash_of (Build_Stream c' n l sel').
Proof. reflexivity. Qed.

(** C9: two streams are equal exactly when their hashes are equal; the hash
    combines the hash of the upstream node and the hash of the label and
    does not look at the selector, so two streams over the same node and
    label that differ only in selector are equal. *)
Theorem stream_eq_iff_hash_eq (s1 s2 : Stream) :
  (eq_of s1 s2 = true <-> hash_of s1 = hash_of s2)
  /\ hash_of s1
     = hash_int (get_hash_int [hash_node (node s1); hash_label (label s1)])
  /\ forall sel',
       eq_of s1 (Build_Stream (stream_class s1) (node s1) (label s1) sel')
       = true.
Proof.
  split; [| split].
  - unfold Stream__eq__. apply Z.eqb_eq.
  - reflexivity.
  - intro sel'. unfold Stream__eq__. apply Z.eqb_eq. reflexivity.
Qed.

End StreamIdentityFacts.

(* ================================================================== *)
(** ** Selecting a component of a stream *)

Lemma is_of_types_label_free (n : Node) (types : list NodeClass) :
  forall c l sel l' sel',
    (exists s, Stream__init__ c n l types sel = Ok s) ->
    Stream__init__ c n l' types sel'
    = Ok (Build_Stream c n l' sel').
Proof.
  intros c l sel l' sel' [s Hs]. unfold Stream__init__ in *.
  destruct (_is_of_types node_isinstance n types); simpl in *.
  - reflexivity.
  - discriminate.
Qed.

Lemma Node_stream_inv (n : Node) (l sel : Atom) (s : Stream) :
  Node_stream n l sel = Ok s ->
  s = Build_Stream (outgoing_stream_type n) n l sel.
Proof.
  unfold Node_stream, new_stream, FilterableStream__init__,
    OutputStream__init__, Stream__init__.
  destruct (outgoing_stream_type n);
    match goal with |- context [negb ?b] => destruct b end; simpl;
    intro E; inversion E; reflexivity.
Qed.

Lemma Node_stream_again (n : Node) (l sel l' sel' : Atom) (s : Stream) :
  Node_stream n l sel = Ok s ->
  Node_stream n l' sel' = Ok (Build_Stream (outgoing_stream_type n) n l' sel').
Proof.
  unfold Node_stream, new_stream, FilterableStream__init__,
    OutputStream__init__.
  destruct (outgoing_stream_type n); intro E;
    eapply is_of_types_label_free; eauto.
Qed.

(** C4 (as the code has it): on a stream that its node handed out, the
    index operation with a slice that has no start bound succeeds and
    returns the node's outgoing stream with the slice's stop as selector
    and with no label, as [stream.node.stream(select=stop)] does; the
    label of the original stream is not carried over.  With any index that
    is not a slice, or a slice with a start bound, it raises the
    invalid-usage [ValueError]. *)
Theorem getitem_selects_on_node (n : Node) (l sel : Atom) (s : Stream)
  (item : Index) :
  Node_stream n l sel = Ok s ->
  Stream__getitem__ s item
  = match item with
    | slice ANone stop _ =>
        Ok {| stream_class := stream_class s;
              node := node s;
              label := ANone;
              selector := stop |}
    | _ => Raise (ValueError InvalidSyntax)
    end.
Proof.
  intro Hs. pose proof (Node_stream_inv _ _ _ _ Hs) as ->. simpl.
  destruct item as [start stop step | a]; simpl; [| reflexivity].
  destruct start; simpl; try reflexivity.
  eapply Node_stream_again; eassumption.
Qed.

Lemma getitem_selects_on_node_witness :
  Stream__getitem__ (sample_video "in.mp4") (slice ANone (AStr "audio") ANone)
  = Ok {| stream_class := FilterableStream;
          node := sample_input "in.mp4";
          label := ANone;
          selector := AStr "audio" |}.
Proof.
  apply (getitem_selects_on_node (sample_input "in.mp4") ANone ANone
           (sample_video "in.mp4")
           (slice ANone (AStr "audio") ANone)).
  reflexivity.
Defined.

(** C4 fails as stated: the bare selector form applied to the second output
    of a split node returns a stream without label, not one with the label
    of the original stream. *)
Lemma getitem_drops_label :
  exists s',
    Stream__getitem__ sample_split_1 (slice ANone (AStr "audio") ANone) = Ok s'
    /\ selector s' = AStr "audio"
    /\ node s' = node sample_split_1
    /\ label sample_split_1 = AInt 1
    /\ label s' = ANone
    /\ label s' <> label sample_split_1.
Proof.
  eexists. split; [reflexivity |]. simpl. repeat split. discriminate.
Qed.

Lemma getitem_invalid_usage (s : Stream) (item : Index) :
  (forall stop step, item <> slice ANone stop step) ->
  Stream__getitem__ s item = Raise (ValueError InvalidSyntax).
Proof.
  intro H. destruct item as [start stop step | a]; simpl; [| reflexivity].
  destruct start; simpl; try reflexivity.
  exfalso. eapply H. reflexivity.
Qed.

(* ================================================================== *)
(** ** Construction: cardinality and kinds *)

Lemma len_nonneg {K V : Type} (d : dict K V) : 0 <= len d.
Proof. unfold len. lia. Qed.

Lemma check_input_len_below {V : Type} (m : dict Atom V) (lo : Z)
  (hi : option Z) :
  len m < lo ->
  __check_input_len m (Some lo) hi
  = Raise (ValueError (ExpectedAtLeast lo (len m))).
Proof.
  intro H. unfold __check_input_len.
  apply Z.ltb_lt in H. rewrite H. reflexivity.
Qed.

Lemma check_input_len_above {V : Type} (m : dict Atom V) (lo : option Z)
  (hi : Z) :
  len m > hi ->
  exists e, __check_input_len m lo (Some hi) = Raise e
            /\ is_ArityError e = true.
Proof.
  intro H. unfold __check_input_len.
  assert (Hgt : (len m >? hi) = true) by (apply Z.gtb_lt; lia).
  rewrite Hgt.
  destruct lo as [lo |]; [destruct (len m <? lo) |]; eexists; split;
    reflexivity.
Qed.

Lemma check_input_len_Ok {V : Type} (m : dict Atom V) (lo hi : option Z) :
  (forall b, lo = Some b -> b <= len m) ->
  (forall b, hi = Some b -> len m <= b) ->
  __check_input_len m lo hi = Ok tt.
Proof.
  intros Hlo Hhi. unfold __check_input_len.
  assert (Hmax : match hi with
                 | Some b =>
                     if len m >? b
                     then Raise (ValueError (ExpectedAtMost b (len m)))
                     else Ok tt
                 | None => Ok tt
                 end = Ok tt).
  { destruct hi as [b |]; [| reflexivity].
    specialize (Hhi b eq_refl).
    assert (E : (len m >? b) = false) by (rewrite Z.gtb_ltb; apply Z.ltb_ge; lia).
    rewrite E. reflexivity. }
  destruct lo as [b |]; [| exact Hmax].
  specialize (Hlo b eq_refl).
  assert (E : (len m <? b) = false) by (apply Z.ltb_ge; lia).
  rewrite E. exact Hmax.
Qed.

Lemma check_input_len_arity {V : Type} (m : dict Atom V) (lo hi : option Z)
  (e : Exception) :
  __check_input_len m lo hi = Raise e -> is_ArityError e = true.
Proof.
  unfold __check_input_len.
  destruct lo as [lo |], hi as [hi |];
    repeat match goal with
           | |- context [if ?b then _ else _] => destruct b
           end;
    intro E; inversion E; reflexivity.
Qed.

Lemma check_input_types_loop_bad (values : list Value)
  (types : list StreamClass) (v : Value) :
  In v values ->
  _is_of_types value_isinstance v types = false ->
  check_input_types_loop values types = Raise (TypeError ExpectedIncomingStream).
Proof.
  induction values as [| x rest IH]; intros Hin Hbad; [contradiction |].
  simpl. destruct (_is_of_types value_isinstance x types) eqn:Hx; simpl.
  - destruct Hin as [-> | Hin]; [congruence | auto].
  - reflexivity.
Qed.

Lemma check_input_types_loop_raises (values : list Value)
  (types : list StreamClass) (e : Exception) :
  check_input_types_loop values types = Raise e ->
  e = TypeError ExpectedIncomingStream.
Proof.
  induction values as [| x rest IH]; simpl; [discriminate |].
  destruct (_is_of_types value_isinstance x types); simpl; auto.
  intro E. inversion E. reflexivity.
Qed.

Lemma check_input_types_loop_Ok (values : list Value)
  (types : list StreamClass) :
  check_input_types_loop values types = Ok tt ->
  forall v, In v values -> _is_of_types value_isinstance v types = true.
Proof.
  induction values as [| x rest IH]; simpl; [contradiction |].
  destruct (_is_of_types value_isinstance x types) eqn:Hx; simpl;
    [| discriminate].
  intros Hrest v [<- | Hin]; auto.
Qed.

Lemma is_of_types_stream (v : Value) (types : list StreamClass) :
  _is_of_types value_isinstance v types = true -> exists s, v = VStream s.
Proof.
  destruct v as [s | a]; [eauto |].
  induction types; simpl; [discriminate | auto].
Qed.

(** C5: a filter node (at least one input, by default at most one) cannot
    be constructed from a specification that normalises to zero or to two
    streams, which raises the arity [ValueError], and is constructed from
    one processable stream; and in general [Node.__init__] raises the arity
    error whenever the normalised map is shorter than a given minimum or
    longer than a given maximum. *)
Theorem filter_node_arity (stream_spec : StreamSpec) (m : dict Atom Value)
  (name : string) (args : list Atom) (kwargs : dict string Atom) :
  get_stream_map stream_spec = Ok m ->
  (len m = 0 ->
   FilterNode__init__ stream_spec name FilterNode_default_max_inputs args kwargs
   = Raise (ValueError (ExpectedAtLeast 1 0)))
  /\ (len m = 2 ->
      FilterNode__init__ stream_spec name FilterNode_default_max_inputs args
        kwargs
      = Raise (ValueError (ExpectedAtMost 1 2)))
  /\ (forall k s,
        m = [(k, VStream s)] -> stream_class s = FilterableStream ->
        FilterNode__init__ stream_spec name FilterNode_default_max_inputs args
          kwargs
        = Ok {| node_class := FilterNode;
                name := name;
                args := args;
                kwargs := kwargs;
                incoming_edge_map := [(k, (node s, label s, selector s))];
                outgoing_stream_type := FilterableStream;
                incoming_stream_types := [FilterableStream];
                min_inputs := Some 1;
                max_inputs := Some 1 |})
  /\ (forall cls types out lo hi,
        (exists b, lo = Some b /\ len m < b)
        \/ (exists b, hi = Some b /\ len m > b) ->
        exists e,
          Node__init__ cls stream_spec name types out lo hi args kwargs
          = Raise e
          /\ is_ArityError e = true).
Proof.
  intro Hm. unfold FilterNode__init__, FilterNode_default_max_inputs,
    Node__init__. rewrite Hm. simpl bind.
  repeat split.
  - intro H0. unfold __check_input_len. rewrite H0. reflexivity.
  - intro H2. unfold __check_input_len. rewrite H2. reflexivity.
  - intros k s -> Hs. unfold __check_input_len, __check_input_types. simpl.
    rewrite Hs. reflexivity.
  - intros cls types out lo hi [[b [-> Hb]] | [b [-> Hb]]].
    + rewrite check_input_len_below by exact Hb. simpl.
      eexists; split; reflexivity.
    + destruct (check_input_len_above m lo b Hb) as [e [He Ha]].
      rewrite He. simpl. eauto.
Qed.

Lemma filter_node_arity_witness :
  FilterNode__init__ (SpecList [VStream (sample_video "a.mp4");
                                VStream (sample_video "b.mp4")])
    "hflip" FilterNode_default_max_inputs [] []
  = Raise (ValueError (ExpectedAtMost 1 2)).
Proof.
  refine (proj1 (proj2 (filter_node_arity
            (SpecList [VStream (sample_video "a.mp4");
                       VStream (sample_video "b.mp4")])
            [(AInt 0, VStream (sample_video "a.mp4"));
             (AInt 1, VStream (sample_video "b.mp4"))]
            "hflip" [] [] _)) _); reflexivity.
Defined.

(** C6 (as the code has it): the kinds are checked after the cardinality;
    when the normalised map passes the cardinality check, a value in it
    whose kind is not among the allowed incoming kinds makes the
    construction raise the type-mismatch [TypeError]; an output node has no
    cardinality bound that can fail, so constructing it with a
    non-processable stream always raises that [TypeError]. *)
Theorem node_init_kind_mismatch (stream_spec : StreamSpec)
  (m : dict Atom Value) (v : Value) :
  get_stream_map stream_spec = Ok m ->
  In v (dict_values m) ->
  (forall cls name types out lo hi args kwargs,
     __check_input_len m lo hi = Ok tt ->
     _is_of_types value_isinstance v types = false ->
     Node__init__ cls stream_spec name types out lo hi args kwargs
     = Raise (TypeError ExpectedIncomingStream))
  /\ (forall name args kwargs,
        value_isinstance v FilterableStream = false ->
        OutputNode__init__ stream_spec name args kwargs
        = Raise (TypeError ExpectedIncomingStream)).
Proof.
  intros Hm Hin.
  assert (G : forall cls name types out lo hi args kwargs,
     __check_input_len m lo hi = Ok tt ->
     _is_of_types value_isinstance v types = false ->
     Node__init__ cls stream_spec name types out lo hi args kwargs
     = Raise (TypeError ExpectedIncomingStream)).
  { intros cls name types out lo hi args kwargs Hlen Hbad.
    unfold Node__init__. rewrite Hm. simpl bind. rewrite Hlen. simpl bind.
    unfold __check_input_types.
    rewrite (check_input_types_loop_bad _ _ v Hin Hbad). reflexivity. }
  split; [exact G |].
  intros name args kwargs Hbad. unfold OutputNode__init__. apply G.
  - apply check_input_len_Ok; [| discriminate].
    intros b Hb. inversion Hb. apply len_nonneg.
  - simpl. rewrite Hbad. reflexivity.
Qed.

Lemma node_init_kind_mismatch_witness :
  OutputNode__init__ (SpecStream sample_out_stream) "output" [] []
  = Raise (TypeError ExpectedIncomingStream).
Proof.
  refine (proj2 (node_init_kind_mismatch (SpecStream sample_out_stream)
                   [(ANone, VStream sample_out_stream)]
                   (VStream sample_out_stream) _ _) "output" [] [] _).
  - reflexivity.
  - simpl. left. reflexivity.
  - reflexivity.
Defined.

(** C6 fails as stated: a filter node given two output streams has two
    values of a kind that is not allowed, and the construction raises the
    arity error of the earlier cardinality check, not a type mismatch. *)
Lemma node_init_arity_before_kind :
  (forall v, In v [VStream sample_out_stream; VStream sample_out_stream] ->
             _is_of_types value_isinstance v [FilterableStream] = false)
  /\ exists e,
       FilterNode__init__
         (SpecList [VStream sample_out_stream; VStream sample_out_stream])
         "hflip" FilterNode_default_max_inputs [] []
       = Raise e
       /\ is_ArityError e = true
       /\ is_TypeMismatch e = false.
Proof.
  split.
  - intros v [<- | [<- | []]]; reflexivity.
  - eexists. split; [reflexivity |]. split; reflexivity.
Qed.

(* ================================================================== *)
(** ** Attaching streams: a failed call leaves the node as it was *)

Ltac method_steps :=
  unfold _add_streams, mbind, attr, call, mret, mutate_incoming_edge_map.

Lemma add_streams_raise_unchanged (stream_spec : StreamSpec)
  (self self' : Node) (e : Exception) :
  _add_streams stream_spec self = (Raise e, self') -> self' = self.
Proof.
  method_steps.
  destruct (get_stream_map stream_spec) as [new_stream_map | e0];
    [| intro E; inversion E; reflexivity].
  destruct (__check_input_types new_stream_map (incoming_stream_types self))
    as [[] | e0]; [| intro E; inversion E; reflexivity].
  destruct (__get_incoming_edge_map new_stream_map) as [new_inc | e0];
    [| intro E; inversion E; reflexivity].
  destruct (__check_input_len _ (min_inputs self) (max_inputs self))
    as [[] | e0]; [| intro E; inversion E; reflexivity].
  destruct (dict_mem ANone (incoming_edge_map self)); discriminate.
Qed.

(** C2: when [_add_streams] raises, with the arity error of the
    cardinality check or the type mismatch of the kind check, the node's
    stored incoming edge map is afterwards what it was before the call, in
    contents and in length. *)
Theorem add_streams_failure_atomic (stream_spec : StreamSpec)
  (self self' : Node) (e : Exception) :
  _add_streams stream_spec self = (Raise e, self') ->
  is_ArityError e = true \/ is_TypeMismatch e = true ->
  incoming_edge_map self' = incoming_edge_map self
  /\ len (incoming_edge_map self') = len (incoming_edge_map self).
Proof.
  intros Hrun _. apply add_streams_raise_unchanged in Hrun. subst self'.
  split; reflexivity.
Qed.

Lemma add_streams_failure_atomic_witness :
  fst (_add_streams (SpecStream sample_out_stream) sample_hflip)
  = Raise (TypeError ExpectedIncomingStream)
  /\ incoming_edge_map
       (snd (_add_streams (SpecStream sample_out_stream) sample_hflip))
     = incoming_edge_map sample_hflip
  /\ len (incoming_edge_map
            (snd (_add_streams (SpecStream sample_out_stream) sample_hflip)))
     = 1.
Proof.
  split; [reflexivity |].
  apply (add_streams_failure_atomic (SpecStream sample_out_stream)
           sample_hflip
           (snd (_add_streams (SpecStream sample_out_stream) sample_hflip))
           (TypeError ExpectedIncomingStream)).
  - reflexivity.
  - right. reflexivity.
Defined.

(** The arity error leaves the node untouched as well. *)
Example add_streams_arity_failure :
  _add_streams (SpecStream (sample_video "b.mp4")) sample_hflip
  = (Raise (ValueError (ExpectedAtMost 1 2)), sample_hflip).
Proof. reflexivity. Qed.

(* ================================================================== *)
(** ** Dictionaries *)

#[export] Instance PyKeyLaws_Atom : PyKeyLaws Atom.
Proof.
  intros a b. unfold key_eqb, PyKey_Atom.
  destruct a, b; simpl; split; intro E; try discriminate; try reflexivity.
  - apply Z.eqb_eq in E. now subst.
  - inversion E. apply Z.eqb_refl.
  - apply String.eqb_eq in E. now subst.
  - inversion E. apply String.eqb_refl.
Qed.

#[export] Instance PyKeyLaws_string : PyKeyLaws string.
Proof. intros a b. apply String.eqb_eq. Qed.

Section DictFacts.
Context {K V : Type} `{PyKeyLaws K}.

Lemma key_eqb_refl (k : K) : key_eqb k k = true.
Proof. apply key_eqb_eq. reflexivity. Qed.

Lemma key_eqb_neq (a b : K) : a <> b -> key_eqb a b = false.
Proof.
  intro N. destruct (key_eqb a b) eqn:E; [| reflexivity].
  apply key_eqb_eq in E. contradiction.
Qed.

Lemma dict_get_None (d : dict K V) (k : K) :
  dict_get d k = None <-> ~ In k (dict_keys d).
Proof.
  induction d as [| [k' v'] rest IH]; simpl.
  - split; auto.
  - destruct (key_eqb k k') eqn:E.
    + apply key_eqb_eq in E. subst. split; [discriminate | intro N].
      exfalso. apply N. now left.
    + rewrite IH. split.
      * intros N [-> | Hin]; [rewrite key_eqb_refl in E; discriminate | auto].
      * intros N Hin. apply N. now right.
Qed.

Lemma dict_get_In (d : dict K V) (k : K) (v : V) :
  NoDup (dict_keys d) -> In (k, v) d -> dict_get d k = Some v.
Proof.
  induction d as [| [k' v'] rest IH]; simpl; [contradiction |].
  intros ND [E | Hin].
  - inversion E; subst. now rewrite key_eqb_refl.
  - inversion ND as [| ? ? Hnotin ND']; subst.
    destruct (key_eqb k k') eqn:E.
    + apply key_eqb_eq in E. subst. exfalso. apply Hnotin.
      change k' with (fst (k', v)). now apply in_map.
    + auto.
Qed.

Lemma dict_get_Some_In (d : dict K V) (k : K) (v : V) :
  dict_get d k = Some v -> In (k, v) d.
Proof.
  induction d as [| [k' v'] rest IH]; simpl; [discriminate |].
  destruct (key_eqb k k') eqn:E.
  - apply key_eqb_eq in E. subst. intro E. inversion E. now left.
  - auto.
Qed.

Lemma dict_set_same (d : dict K V) (k : K) (v : V) :
  dict_get d k = Some v -> dict_set d k v = d.
Proof.
  induction d as [| [k' v'] rest IH]; simpl; [discriminate |].
  destruct (key_eqb k k') eqn:E.
  - intro E'. inversion E'. reflexivity.
  - intro E'. now rewrite IH.
Qed.

Lemma dict_set_fresh (d : dict K V) (k : K) (v : V) :
  ~ In k (dict_keys d) -> dict_set d k v = d ++ [(k, v)].
Proof.
  induction d as [| [k' v'] rest IH]; simpl; [reflexivity |].
  intro N. rewrite key_eqb_neq by (intros ->; apply N; now left).
  rewrite IH; [reflexivity |]. intro Hin. apply N. now right.
Qed.

Lemma dict_update_app (d a b : dict K V) :
  dict_update d (a ++ b) = dict_update (dict_update d a) b.
Proof. unfold dict_update. apply fold_left_app. Qed.

(** Updating with entries the dictionary already has changes nothing. *)
Lemma dict_update_same (d items : dict K V) :
  (forall k v, In (k, v) items -> dict_get d k = Some v) ->
  dict_update d items = d.
Proof.
  induction items as [| [k v] rest IH]; intro Hall; [reflexivity |].
  unfold dict_update in *. simpl.
  rewrite dict_set_same by (apply Hall; now left).
  apply IH. intros k' v' Hin. apply Hall. now right.
Qed.

(** Updating with entries under new, distinct keys appends them in order. *)
Lemma dict_update_fresh (items d : dict K V) :
  NoDup (dict_keys items) ->
  (forall k, In k (dict_keys items) -> ~ In k (dict_keys d)) ->
  dict_update d items = d ++ items.
Proof.
  revert d. induction items as [| [k v] rest IH]; intros d ND Hfresh.
  - unfold dict_update. simpl. now rewrite app_nil_r.
  - inversion ND as [| ? ? Hnotin ND']; subst.
    unfold dict_update in *. simpl.
    rewrite dict_set_fresh by (apply Hfresh; now left).
    rewrite IH; [now rewrite <- app_assoc | exact ND' |].
    intros k' Hin. unfold dict_keys. rewrite map_app, in_app_iff.
    intros [Hd | [<- | []]].
    + apply (Hfresh k'); [now right | exact Hd].
    + contradiction.
Qed.

Lemma dict_of_items_NoDup (items : dict K V) :
  NoDup (dict_keys items) -> dict_of_items items = items.
Proof.
  intro ND. unfold dict_of_items. now rewrite dict_update_fresh.
Qed.

End DictFacts.

(** *** Enumerations *)

Lemma enumerate_from_keys_ge {V : Type} (l : list V) (i : Z) (k : Atom) :
  In k (dict_keys (enumerate_from i l)) ->
  exists j, k = AInt j /\ i <= j < i + Z.of_nat (List.length l).
Proof.
  revert i. induction l as [| x rest IH]; intros i; simpl; [contradiction |].
  intros [<- | Hin].
  - exists i. split; [reflexivity | lia].
  - destruct (IH _ Hin) as [j [-> Hj]]. exists j. split; [reflexivity | lia].
Qed.

Lemma enumerate_from_NoDup {V : Type} (l : list V) (i : Z) :
  NoDup (dict_keys (enumerate_from i l)).
Proof.
  revert i. induction l as [| x rest IH]; intro i; simpl; constructor.
  - intro Hin. apply enumerate_from_keys_ge in Hin as [j [E Hj]].
    inversion E. lia.
  - apply IH.
Qed.

Lemma enumerate_from_app {V : Type} (a b : list V) (i : Z) :
  enumerate_from i (a ++ b)
  = enumerate_from i a ++ enumerate_from (i + Z.of_nat (List.length a)) b.
Proof.
  revert i. induction a as [| x rest IH]; intro i; simpl.
  - now rewrite Z.add_0_r.
  - rewrite IH. do 3 f_equal. lia.
Qed.

Lemma enumerate_from_values {V : Type} (l : list V) (i : Z) :
  dict_values (enumerate_from i l) = l.
Proof.
  revert i. induction l as [| x rest IH]; intro i; simpl; [| rewrite IH];
    reflexivity.
Qed.

Lemma enumerate_from_keys {V : Type} (l : list V) (i : nat) :
  dict_keys (enumerate_from (Z.of_nat i) l)
  = map (fun j => AInt (Z.of_nat j)) (seq i (List.length l)).
Proof.
  revert i. induction l as [| x rest IH]; intro i; simpl; [reflexivity |].
  f_equal. rewrite <- IH. do 2 f_equal. lia.
Qed.

Lemma enumerate_length {V : Type} (l : list V) (i : Z) :
  List.length (enumerate_from i l) = List.length l.
Proof.
  revert i. induction l as [| x rest IH]; intro i; simpl; [| rewrite IH];
    reflexivity.
Qed.

Lemma enumerate_no_None {V : Type} (l : list V) :
  dict_mem ANone (enumerate l) = false.
Proof.
  unfold dict_mem.
  destruct (dict_get (enumerate l) ANone) eqn:E; [| reflexivity].
  apply dict_get_Some_In in E.
  apply (in_map fst) in E. simpl in E.
  apply enumerate_from_keys_ge in E as [j [E _]]. discriminate.
Qed.

(** [dict(enumerate(l))] has the positions as keys, in order. *)
Lemma dict_of_items_enumerate {V : Type} (l : list V) :
  dict_of_items (enumerate l) = enumerate l.
Proof. apply dict_of_items_NoDup, enumerate_from_NoDup. Qed.

(** Updating the enumeration of [a] with that of [a ++ b]. *)
Lemma dict_update_enumerate {V : Type} (a b : list V) :
  dict_update (enumerate a) (enumerate (a ++ b)) = enumerate (a ++ b).
Proof.
  unfold enumerate. rewrite enumerate_from_app, dict_update_app.
  rewrite (dict_update_same (enumerate_from 0 a) (enumerate_from 0 a)).
  - apply dict_update_fresh; [apply enumerate_from_NoDup |].
    intros k Hb Ha.
    apply enumerate_from_keys_ge in Hb as [j [-> Hj]].
    apply enumerate_from_keys_ge in Ha as [j' [E Hj']].
    inversion E. lia.
  - intros k v Hin. apply dict_get_In; [apply enumerate_from_NoDup | exact Hin].
Qed.

(* ================================================================== *)
(** ** Attaching streams: the merged edge map *)

Lemma len_enumerate_app {V : Type} (a b : list V) :
  len (enumerate (a ++ b))
  = Z.of_nat (List.length a) + Z.of_nat (List.length b).
Proof.
  unfold len, enumerate. rewrite enumerate_length, length_app. lia.
Qed.

(** When every check passes, [_add_streams] pops the unlabeled key if
    there is one and updates the stored dictionary with the enumeration
    of the old and the new edges. *)
Lemma add_streams_Ok (stream_spec : StreamSpec) (self : Node)
  (new_stream_map : dict Atom Value) (new_inc : dict Atom Edge) :
  get_stream_map stream_spec = Ok new_stream_map ->
  __check_input_types new_stream_map (incoming_stream_types self) = Ok tt ->
  __get_incoming_edge_map new_stream_map = Ok new_inc ->
  (forall b, min_inputs self = Some b ->
             b <= len (incoming_edge_map self) + len new_inc) ->
  (forall b, max_inputs self = Some b ->
             len (incoming_edge_map self) + len new_inc <= b) ->
  _add_streams stream_spec self
  = (Ok tt,
     with_incoming_edge_map self
       (dict_update
          (if dict_mem ANone (incoming_edge_map self)
           then dict_pop (incoming_edge_map self) ANone
           else incoming_edge_map self)
          (enumerate (dict_values (incoming_edge_map self)
                      ++ dict_values new_inc)))).
Proof.
  intros Hmap Htypes Hinc Hlo Hhi. method_steps.
  rewrite Hmap, Htypes, Hinc, dict_of_items_enumerate.
  rewrite check_input_len_Ok.
  - destruct (dict_mem ANone (incoming_edge_map self)); reflexivity.
  - intros b Hb. rewrite len_enumerate_app. specialize (Hlo b Hb).
    unfold len, dict_values in *. rewrite !length_map. exact Hlo.
  - intros b Hb. rewrite len_enumerate_app. specialize (Hhi b Hb).
    unfold len, dict_values in *. rewrite !length_map. exact Hhi.
Qed.

Lemma merge_positional (d : dict Atom Edge) (ws : list Edge) :
  positional_or_unlabeled d ->
  dict_update (if dict_mem ANone d then dict_pop d ANone else d)
    (enumerate (dict_values d ++ ws))
  = enumerate (dict_values d ++ ws).
Proof.
  intros [Hpos | [e ->]].
  - remember (dict_values d) as vs eqn:Hvs. subst d. clear Hvs.
    rewrite enumerate_no_None. apply dict_update_enumerate.
  - simpl. apply (dict_update_enumerate [] (e :: ws)).
Qed.

(** *** The shape of the stored map is an invariant *)

Lemma pairs_ext {A B : Type} (a b : list (A * B)) :
  map fst a = map fst b -> map snd a = map snd b -> a = b.
Proof.
  revert b. induction a as [| [x y] a IH]; intros [| [x' y'] b]; simpl;
    try discriminate; [reflexivity |].
  intros Hk Hv. inversion Hk. inversion Hv. subst. f_equal. auto.
Qed.

Lemma positional_of_keys (d : dict Atom Edge) :
  dict_keys d = positions (List.length d) -> d = enumerate (dict_values d).
Proof.
  intro Hk. apply pairs_ext.
  - fold (dict_keys d). rewrite Hk.
    fold (dict_keys (enumerate (dict_values d))).
    unfold enumerate, positions. change 0 with (Z.of_nat 0).
    rewrite enumerate_from_keys. unfold dict_values. now rewrite length_map.
  - fold (dict_values d). fold (dict_values (enumerate (dict_values d))).
    unfold enumerate. now rewrite enumerate_from_values.
Qed.

Lemma get_incoming_edge_map_loop_keys (items : list (Atom * Value)) :
  forall acc inc,
    NoDup (dict_keys items) ->
    (forall k, In k (dict_keys items) -> ~ In k (dict_keys acc)) ->
    get_incoming_edge_map_loop items acc = Ok inc ->
    dict_keys inc = dict_keys acc ++ dict_keys items.
Proof.
  induction items as [| [k v] rest IH]; intros acc inc ND Hfresh; simpl.
  - intro E. inversion E. now rewrite app_nil_r.
  - destruct v as [s | a]; [| discriminate].
    inversion ND as [| ? ? Hnotin ND']; subst.
    rewrite dict_set_fresh by (apply Hfresh; now left).
    intro Hloop. apply IH in Hloop; [| exact ND' |].
    + rewrite Hloop. unfold dict_keys. rewrite map_app. simpl.
      now rewrite <- app_assoc.
    + intros k' Hin. unfold dict_keys. rewrite map_app, in_app_iff.
      intros [Hacc | [<- | []]].
      * apply (Hfresh k'); [now right | exact Hacc].
      * contradiction.
Qed.

(** A node constructed from an absent specification, from one stream or
    from a sequence stores a map of that shape. *)
Lemma init_positional_or_unlabeled (cls : NodeClass) (stream_spec : StreamSpec)
  (name : string) (types : list StreamClass) (out : StreamClass)
  (lo hi : option Z) (args : list Atom) (kwargs : dict string Atom)
  (self : Node) :
  (forall d, stream_spec <> SpecDict d) ->
  Node__init__ cls stream_spec name types out lo hi args kwargs = Ok self ->
  positional_or_unlabeled (incoming_edge_map self).
Proof.
  intros Hshape. unfold Node__init__.
  destruct (get_stream_map stream_spec) as [m |] eqn:Hm; [| discriminate].
  simpl bind.
  destruct (__check_input_len m lo hi) as [[] |]; [| discriminate].
  simpl bind.
  destruct (__check_input_types m types) as [[] |]; [| discriminate].
  simpl bind.
  destruct (__get_incoming_edge_map m) as [inc |] eqn:Hinc; [| discriminate].
  simpl bind. intro E. inversion E; subst; clear E. cbn [incoming_edge_map].
  assert (Hseq : forall l, m = dict_of_items (enumerate l) ->
                           positional_or_unlabeled inc).
  { intros l ->. rewrite dict_of_items_enumerate in Hinc. left.
    apply positional_of_keys.
    apply get_incoming_edge_map_loop_keys in Hinc;
      [| apply enumerate_from_NoDup | intros k _ []].
    simpl in Hinc.
    assert (Hlen : List.length inc = List.length l).
    { rewrite <- (length_map fst inc). fold (dict_keys inc). rewrite Hinc.
      unfold dict_keys, enumerate.
      now rewrite length_map, enumerate_length. }
    rewrite Hinc, Hlen. unfold enumerate, positions.
    change 0 with (Z.of_nat 0). apply enumerate_from_keys. }
  destruct stream_spec as [| s | l | l | d | z | str]; simpl in Hm;
    inversion Hm; subst.
  - inversion Hinc. left. reflexivity.
  - inversion Hinc. right. eexists. reflexivity.
  - eapply Hseq. reflexivity.
  - eapply Hseq. reflexivity.
  - exfalso. eapply Hshape. reflexivity.
Qed.

(** Where the code does what its comments say: on a node whose incoming
    edge map has the positions as keys, or only the unlabeled entry,
    attaching a
    specification that passes the kind and cardinality checks stores the
    enumeration of the existing edges followed by the new ones: the values
    are the old ones and then the new ones, the keys are the contiguous
    positions from 0 (the unlabeled entry becomes position 0), and no
    unlabeled entry is left. *)
Theorem add_streams_renumbers_positional (stream_spec : StreamSpec)
  (self : Node) (new_stream_map : dict Atom Value)
  (new_inc : dict Atom Edge) :
  positional_or_unlabeled (incoming_edge_map self) ->
  get_stream_map stream_spec = Ok new_stream_map ->
  __check_input_types new_stream_map (incoming_stream_types self) = Ok tt ->
  __get_incoming_edge_map new_stream_map = Ok new_inc ->
  (forall b, min_inputs self = Some b ->
             b <= len (incoming_edge_map self) + len new_inc) ->
  (forall b, max_inputs self = Some b ->
             len (incoming_edge_map self) + len new_inc <= b) ->
  exists merged,
    _add_streams stream_spec self = (Ok tt, with_incoming_edge_map self merged)
    /\ merged = enumerate (dict_values (incoming_edge_map self)
                           ++ dict_values new_inc)
    /\ dict_values merged
       = dict_values (incoming_edge_map self) ++ dict_values new_inc
    /\ dict_keys merged
       = positions (List.length (incoming_edge_map self)
                    + List.length new_inc)
    /\ dict_mem ANone merged = false.
Proof.
  intros Hshape Hmap Htypes Hinc Hlo Hhi.
  exists (enumerate (dict_values (incoming_edge_map self)
                     ++ dict_values new_inc)).
  split; [| split; [reflexivity | split; [| split]]].
  - rewrite (add_streams_Ok _ _ _ _ Hmap Htypes Hinc Hlo Hhi). do 2 f_equal.
    now apply merge_positional.
  - apply enumerate_from_values.
  - unfold enumerate, positions.
    change 0 with (Z.of_nat 0). rewrite enumerate_from_keys.
    unfold dict_values. now rewrite length_app, !length_map.
  - apply enumerate_no_None.
Qed.

Lemma add_streams_renumbers_positional_witness :
  exists merged,
    _add_streams (SpecList [VStream (sample_video "b.mp4")]) sample_output
    = (Ok tt, with_incoming_edge_map sample_output merged)
    /\ merged = enumerate ([edge_in] ++ [edge_b])
    /\ dict_values merged = [edge_in] ++ [edge_b]
    /\ dict_keys merged = positions (1 + 1)
    /\ dict_mem ANone merged = false.
Proof.
  apply (add_streams_renumbers_positional
           (SpecList [VStream (sample_video "b.mp4")]) sample_output
           [(AInt 0, VStream (sample_video "b.mp4"))]
           [(AInt 0, edge_b)]).
  - right. exists edge_in. reflexivity.
  - reflexivity.
  - reflexivity.
  - reflexivity.
  - intros b E. inversion E. vm_compute. discriminate.
  - intros b E. discriminate E.
Defined.

(** A successful attach on a map of that shape stores a map of that
    shape again. *)
Lemma add_streams_keeps_shape (stream_spec : StreamSpec) (self self' : Node) :
  positional_or_unlabeled (incoming_edge_map self) ->
  _add_streams stream_spec self = (Ok tt, self') ->
  positional_or_unlabeled (incoming_edge_map self').
Proof.
  intro Hshape. method_steps.
  destruct (get_stream_map stream_spec) as [new_stream_map |];
    [| discriminate].
  destruct (__check_input_types new_stream_map (incoming_stream_types self))
    as [[] |]; [| discriminate].
  destruct (__get_incoming_edge_map new_stream_map) as [new_inc |];
    [| discriminate].
  destruct (__check_input_len _ (min_inputs self) (max_inputs self))
    as [[] |]; [| discriminate].
  rewrite dict_of_items_enumerate.
  pose proof (merge_positional _ (dict_values new_inc) Hshape) as Hmerge.
  destruct (dict_mem ANone (incoming_edge_map self)) eqn:Hnone;
    intro E; inversion E; subst; clear E; cbn [incoming_edge_map].
  all: unfold Edge in Hmerge; rewrite Hnone in Hmerge; unfold Edge;
    rewrite Hmerge; left; unfold enumerate;
    now rewrite enumerate_from_values.
Qed.

(** On a node whose existing entry has a caller-chosen
    name, attaching one more stream keeps the named entry and adds the
    same edge again under position 0, before the new edge under position
    1; the merged map is not the existing entries followed by the new one,
    and it holds the existing edge twice. *)
Lemma add_streams_named_label_duplicates :
  incoming_edge_map sample_overlay = [(AStr "main", edge_in)]
  /\ _add_streams (SpecStream (sample_video "b.mp4")) sample_overlay
     = (Ok tt,
        with_incoming_edge_map sample_overlay
          [(AStr "main", edge_in); (AInt 0, edge_in); (AInt 1, edge_b)])
  /\ dict_values [(AStr "main", edge_in); (AInt 0, edge_in); (AInt 1, edge_b)]
     <> dict_values (incoming_edge_map sample_overlay) ++ [edge_b]
  /\ ~ NoDup
       (dict_values
          [(AStr "main", edge_in); (AInt 0, edge_in); (AInt 1, edge_b)]).
Proof.
  split; [reflexivity |]. split; [reflexivity |]. split.
  - intro E. apply (f_equal (@List.length Edge)) in E. discriminate E.
  - intro ND. inversion ND as [| ? ? Hnotin _]. apply Hnotin. now left.
Qed.

Example sample_named_full_built :
  FilterNode__init__ (SpecDict [(AStr "main", VStream (sample_video "in.mp4"))])
    "overlay" FilterNode_default_max_inputs [] []
  = Ok sample_named_full.
Proof. reflexivity. Qed.

(** C1, where the code departs from it: the merged map is to hold every
    edge once, the existing entries and then the new ones, and the code
    checks the length of exactly that renumbered candidate; but it
    overwrites the stored map by popping only the unlabeled key before the
    update, so an entry under a caller-chosen name stays beside its
    renumbered copy.  On a node built from [{'main': s}], attaching one
    stream stores three entries with the first edge twice; and on such a
    node with the default maximum of one input, attaching nothing passes
    the length check on a candidate of one entry and leaves two entries
    stored, more than the maximum. *)
Theorem add_streams_named_label_defect :
  _add_streams (SpecStream (sample_video "b.mp4")) sample_overlay
  = (Ok tt,
     with_incoming_edge_map sample_overlay
       [(AStr "main", edge_in); (AInt 0, edge_in); (AInt 1, edge_b)])
  /\ enumerate (dict_values (incoming_edge_map sample_overlay) ++ [edge_b])
     = [(AInt 0, edge_in); (AInt 1, edge_b)]
  /\ ~ NoDup
       (dict_values
          [(AStr "main", edge_in); (AInt 0, edge_in); (AInt 1, edge_b)])
  /\ _add_streams SpecNone sample_named_full
     = (Ok tt,
        with_incoming_edge_map sample_named_full
          [(AStr "main", edge_in); (AInt 0, edge_in)])
  /\ max_inputs sample_named_full = Some 1
  /\ len [(AStr "main", edge_in); (AInt 0, edge_in)] = 2
  /\ ~ within_bounds
       (with_incoming_edge_map sample_named_full
          [(AStr "main", edge_in); (AInt 0, edge_in)]).
Proof.
  repeat (split; [reflexivity |]). split.
  - intro ND. inversion ND as [| ? ? Hnotin _]. apply Hnotin. now left.
  - repeat (split; [reflexivity |]).
    intros [_ Hhi]. specialize (Hhi 1 eq_refl). vm_compute in Hhi.
    apply Hhi. reflexivity.
Qed.

(* ================================================================== *)
(** ** Strings: order and escaping *)

Lemma string_leb_trans (s1 s2 s3 : string) :
  String.leb s1 s2 = true -> String.leb s2 s3 = true ->
  String.leb s1 s3 = true.
Proof.
  unfold String.leb. revert s2 s3.
  induction s1 as [| a s1 IH]; intros [| b s2] [| c s3]; simpl;
    try reflexivity; try discriminate.
  unfold Ascii.compare.
  destruct (N.compare_spec (N_of_ascii a) (N_of_ascii b)) as [Eab | Lab | Gab],
           (N.compare_spec (N_of_ascii b) (N_of_ascii c)) as [Ebc | Lbc | Gbc],
           (N.compare_spec (N_of_ascii a) (N_of_ascii c)) as [Eac | Lac | Gac];
    try reflexivity; try discriminate; try lia; try (intros; exfalso; lia).
  apply IH.
Qed.

Lemma string_leb_false (s1 s2 : string) :
  String.leb s1 s2 = false -> String.leb s2 s1 = true.
Proof.
  intro E. destruct (String.leb_total s1 s2) as [T | T]; congruence.
Qed.

Lemma escape_text_head (s chars : string) (c : ascii) (r : string) :
  escape_text s chars = String c r -> c = "\"%char \/ char_in c chars = false.
Proof.
  destruct s as [| a s]; simpl; [discriminate |].
  destruct (char_in a chars) eqn:Ha; intro E; inversion E; subst; auto.
Qed.

(** Escaping loses nothing: different texts have different escapes. *)
Lemma escape_text_inj (chars s1 s2 : string) :
  escape_text s1 chars = escape_text s2 chars -> s1 = s2.
Proof.
  revert s2. induction s1 as [| a s1 IH]; intros [| b s2]; simpl.
  - reflexivity.
  - destruct (char_in b chars); discriminate.
  - destruct (char_in a chars); discriminate.
  - destruct (char_in a chars) eqn:Ha, (char_in b chars) eqn:Hb;
      intro E; inversion E; subst.
    + f_equal. auto.
    + exfalso. symmetry in H1.
      apply escape_text_head in H1 as [-> | Hn]; congruence.
    + exfalso.
      apply escape_text_head in H1 as [-> | Hn]; congruence.
    + f_equal. auto.
Qed.

Lemma escape_text_app (s t chars : string) :
  escape_text (s ++ t) chars
  = (escape_text s chars ++ escape_text t chars)%string.
Proof.
  induction s as [| a s IH]; simpl; [reflexivity |].
  destruct (char_in a chars); simpl; now rewrite IH.
Qed.

Lemma escape_uint (d : Decimal.uint) :
  escape_text (NilEmpty.string_of_uint d) param_chars
  = NilEmpty.string_of_uint d.
Proof.
  induction d; simpl; try rewrite IHd; reflexivity.
Qed.

Lemma escape_uint_zero (d : Decimal.uint) :
  escape_text (NilZero.string_of_uint d) param_chars
  = NilZero.string_of_uint d.
Proof.
  destruct d; [reflexivity | ..];
    unfold NilZero.string_of_uint; apply escape_uint.
Qed.

(** The decimal form of an integer holds no character of the parameter
    character set. *)
Lemma escape_int (z : Z) :
  escape_chars (AInt z) param_chars = py_str (AInt z).
Proof.
  unfold escape_chars, py_str, NilZero.string_of_int.
  destruct (Z.to_int z) as [d | d].
  - apply escape_uint_zero.
  - change (escape_text (String "-" (NilZero.string_of_uint d)) param_chars)
      with (String "-" (escape_text (NilZero.string_of_uint d) param_chars)).
    now rewrite escape_uint_zero.
Qed.

(* ================================================================== *)
(** ** Filter descriptors: positional parameters *)

Lemma filter_arg_params_map (args : list Atom) :
  filter_arg_params args = map positional_param args.
Proof. unfold filter_arg_params. now rewrite map_map. Qed.

Lemma positional_param_twice (x : Atom) :
  positional_param x
  = escape_text (escape_text (py_str x) param_chars) param_chars.
Proof. reflexivity. Qed.

Lemma positional_param_int (z : Z) :
  positional_param (AInt z) = py_str (AInt z).
Proof.
  unfold positional_param. rewrite escape_int.
  change (escape_chars (AStr (py_str (AInt z))) param_chars)
    with (escape_chars (AInt z) param_chars).
  apply escape_int.
Qed.

Lemma filter_args_fan_out {E : Type} (self : Node) (outgoing_edges : list E) :
  name self = "split" \/ name self = "asplit" ->
  filter_args self outgoing_edges
  = [AInt (Z.of_nat (List.length outgoing_edges))].
Proof.
  unfold filter_args. intros [-> | ->]; reflexivity.
Qed.

(** C7: on a node whose operation name is [split] or [asplit], the
    descriptor is rendered with the number of outgoing edges in use as its
    only positional parameter, whatever positional parameters the node was
    given; the named parameters follow as usual. *)
Theorem fan_out_overrides_args {E : Type} (self : Node)
  (outgoing_edges : list E) :
  name self = "split" \/ name self = "asplit" ->
  filter_args self outgoing_edges
  = [AInt (Z.of_nat (List.length outgoing_edges))]
  /\ filter_arg_params (filter_args self outgoing_edges)
     = [py_str (AInt (Z.of_nat (List.length outgoing_edges)))]
  /\ _get_filter self outgoing_edges
     = escape_text
         (name self ++ "="
          ++ String.concat ":"
               (py_str (AInt (Z.of_nat (List.length outgoing_edges)))
                :: filter_kwarg_params (kwargs self)))
         graph_chars
  /\ forall explicit_args,
       _get_filter
         {| node_class := node_class self;
            name := name self;
            args := explicit_args;
            kwargs := kwargs self;
            incoming_edge_map := incoming_edge_map self;
            outgoing_stream_type := outgoing_stream_type self;
            incoming_stream_types := incoming_stream_types self;
            min_inputs := min_inputs self;
            max_inputs := max_inputs self |}
         outgoing_edges
       = _get_filter self outgoing_edges.
Proof.
  intro Hname.
  assert (Hargs := filter_args_fan_out self outgoing_edges Hname).
  assert (Hparams :
    filter_arg_params (filter_args self outgoing_edges)
    = [py_str (AInt (Z.of_nat (List.length outgoing_edges)))]).
  { rewrite Hargs, filter_arg_params_map. simpl.
    now rewrite positional_param_int. }
  split; [exact Hargs |]. split; [exact Hparams |]. split.
  - unfold _get_filter. rewrite Hparams.
    cbn [app]. unfold escape_chars at 2.
    destruct Hname as [-> | ->]; reflexivity.
  - intro explicit_args. unfold _get_filter. cbn [name kwargs].
    rewrite Hparams.
    replace (filter_arg_params (filter_args _ outgoing_edges))
      with [py_str (AInt (Z.of_nat (List.length outgoing_edges)))];
      [reflexivity |].
    symmetry. rewrite filter_arg_params_map.
    unfold filter_args. cbn [name].
    destruct Hname as [-> | ->]; simpl; now rewrite positional_param_int.
Qed.

Lemma fan_out_overrides_args_witness :
  args sample_split = [AInt 3]
  /\ _get_filter sample_split [AInt 0; AInt 1] = "split=2".
Proof.
  split; [reflexivity |].
  destruct (fan_out_overrides_args sample_split [AInt 0; AInt 1]
              (or_introl eq_refl)) as (_ & _ & Hrender & _).
  rewrite Hrender. reflexivity.
Defined.

(** C3, where the code departs from it: a positional parameter receives
    the escaping for backslash, quote, equals and colon twice before the
    descriptor is escaped for the graph syntax, while the value of a named
    parameter receives it once. *)
Theorem get_filter_escapes_positional_twice :
  filter_arg_params (args sample_subtitles)
  = [escape_text (escape_text "C:/clip.srt" param_chars) param_chars]
  /\ _get_filter sample_subtitles [edge_in] = "subtitles=C\\\\\\:/clip.srt"
  /\ escape_text
       ("subtitles=" ++ escape_text "C:/clip.srt" param_chars) graph_chars
     = "subtitles=C\\:/clip.srt"
  /\ _get_filter sample_subtitles_kw [edge_in]
     = "subtitles=filename=C\\:/clip.srt".
Proof. repeat split. Qed.

Lemma named_value_escaped_once (k : string) (v : Atom) :
  filter_kwarg_params [(k, v)] = [named_param (k, v)]
  /\ named_param (k, v)
     = (escape_text k param_chars ++ "="
        ++ escape_text (py_str v) param_chars)%string.
Proof.
  split; [| reflexivity].
  unfold filter_kwarg_params, filter_out_kwargs, named_param, kwarg_param.
  simpl. unfold key_eqb, PyKey_string. now rewrite String.eqb_refl.
Qed.

(* ================================================================== *)
(** ** Filter descriptors: named parameters and layout *)

Lemma escaped_key_inj (a b : string * Atom) :
  escaped_key a = escaped_key b -> fst a = fst b.
Proof. apply escape_text_inj. Qed.

Lemma NoDup_escaped_keys (kwargs : dict string Atom) :
  NoDup (dict_keys kwargs) -> NoDup (map escaped_key kwargs).
Proof.
  induction kwargs as [| kv rest IH]; simpl; intro ND; constructor;
    inversion ND as [| ? ? Hnotin ND']; subst.
  - intro Hin. apply in_map_iff in Hin as [kv' [E Hin]].
    apply escaped_key_inj in E. apply Hnotin. rewrite <- E.
    now apply in_map.
  - auto.
Qed.

Lemma NoDup_keys_In_eq {V : Type} (l : list (string * V))
  (a b : string * V) :
  NoDup (dict_keys l) -> In a l -> In b l -> fst a = fst b -> a = b.
Proof.
  induction l as [| x rest IH]; simpl; [contradiction |].
  intros ND Ha Hb E. inversion ND as [| ? ? Hnotin ND']; subst.
  destruct Ha as [-> | Ha], Hb as [-> | Hb]; auto.
  - exfalso. apply Hnotin. rewrite E. now apply in_map.
  - exfalso. apply Hnotin. rewrite <- E. now apply in_map.
Qed.

(** The loop that fills [out_kwargs] is an update of the empty dictionary
    with the escaped items. *)
Lemma filter_out_kwargs_update (kwargs : dict string Atom) :
  filter_out_kwargs kwargs
  = dict_update []
      (map (fun kv => (escaped_key kv, escape_chars (snd kv) param_chars))
         kwargs).
Proof.
  unfold filter_out_kwargs, dict_update. generalize (@nil (string * string)).
  induction kwargs as [| kv rest IH]; intro acc; simpl; [reflexivity |].
  apply IH.
Qed.

Lemma filter_out_kwargs_map (kwargs : dict string Atom) :
  NoDup (dict_keys kwargs) ->
  filter_out_kwargs kwargs
  = map (fun kv => (escaped_key kv, escape_chars (snd kv) param_chars)) kwargs.
Proof.
  intro ND. rewrite filter_out_kwargs_update.
  apply (dict_of_items_NoDup (K := string)).
  unfold dict_keys. rewrite map_map. simpl.
  now apply NoDup_escaped_keys.
Qed.

Lemma kwarg_param_named (kwargs : dict string Atom) (kv : string * Atom) :
  NoDup (dict_keys kwargs) -> In kv kwargs ->
  kwarg_param (filter_out_kwargs kwargs) (escaped_key kv) = named_param kv.
Proof.
  intros ND Hin. unfold kwarg_param.
  rewrite filter_out_kwargs_map by exact ND.
  rewrite (dict_get_In (K := string) _ (escaped_key kv)
             (escape_chars (snd kv) param_chars)); [reflexivity | |].
  - unfold dict_keys. rewrite map_map. simpl. now apply NoDup_escaped_keys.
  - apply (in_map
             (fun kv => (escaped_key kv, escape_chars (snd kv) param_chars))).
    exact Hin.
Qed.

(** *** Sorting *)

Lemma sorted_insert_map (x : string * Atom) (l : list (string * Atom)) :
  sorted_insert (escaped_key x) (map escaped_key l)
  = map escaped_key (insert_item x l).
Proof.
  induction l as [| y rest IH]; simpl; [reflexivity |].
  destruct (String.leb (escaped_key x) (escaped_key y)); simpl;
    [reflexivity | now rewrite IH].
Qed.

Lemma sorted_map (l : list (string * Atom)) :
  sorted (map escaped_key l) = map escaped_key (items_by_escaped_key l).
Proof.
  unfold sorted, items_by_escaped_key.
  induction l as [| x rest IH]; simpl; [reflexivity |].
  rewrite IH. apply sorted_insert_map.
Qed.

Lemma insert_item_perm (x : string * Atom) (l : list (string * Atom)) :
  Permutation (insert_item x l) (x :: l).
Proof.
  induction l as [| y rest IH]; simpl; [reflexivity |].
  destruct (String.leb (escaped_key x) (escaped_key y)); [reflexivity |].
  rewrite IH. apply perm_swap.
Qed.

Lemma items_by_escaped_key_perm (l : list (string * Atom)) :
  Permutation (items_by_escaped_key l) l.
Proof.
  induction l as [| x rest IH]; simpl; [reflexivity |].
  rewrite insert_item_perm. now constructor.
Qed.

Lemma insert_item_sorted (x : string * Atom) (l : list (string * Atom)) :
  StronglySorted escaped_key_le l ->
  StronglySorted escaped_key_le (insert_item x l).
Proof.
  induction 1 as [| y rest Hsorted IH Hall]; simpl.
  - repeat constructor.
  - destruct (String.leb (escaped_key x) (escaped_key y)) eqn:Hxy.
    + constructor; [now constructor |]. constructor; [exact Hxy |].
      eapply Forall_impl; [| exact Hall].
      intros z Hyz. unfold escaped_key_le in *.
      eapply string_leb_trans; eassumption.
    + constructor; [exact IH |].
      eapply Permutation_Forall; [symmetry; apply insert_item_perm |].
      constructor; [| exact Hall].
      now apply string_leb_false.
Qed.

Lemma items_by_escaped_key_sorted (l : list (string * Atom)) :
  StronglySorted escaped_key_le (items_by_escaped_key l).
Proof.
  induction l as [| x rest IH]; simpl; [constructor |].
  now apply insert_item_sorted.
Qed.

(** Two sorted arrangements of the same items are the same list, when no
    two different items compare both ways. *)
Lemma sorted_perm_unique {A : Type} (R : A -> A -> Prop) (l1 l2 : list A) :
  StronglySorted R l1 -> StronglySorted R l2 -> Permutation l1 l2 ->
  (forall x y, In x l1 -> In y l1 -> R x y -> R y x -> x = y) ->
  l1 = l2.
Proof.
  intros S1. revert l2.
  induction S1 as [| a r1 S1 IH Ha]; intros l2 S2 P Anti.
  - apply Permutation_nil in P. now subst.
  - destruct S2 as [| b r2 S2 Hb].
    + symmetry in P. apply Permutation_nil in P. discriminate.
    + assert (E : a = b).
      { assert (Hain : In a (b :: r2))
          by (eapply Permutation_in; [exact P | now left]).
        assert (Hbin : In b (a :: r1))
          by (eapply Permutation_in; [symmetry; exact P | now left]).
        destruct Hain as [-> | Hain]; [reflexivity |].
        destruct Hbin as [-> | Hbin]; [reflexivity |].
        rewrite Forall_forall in Ha, Hb.
        apply Anti; [now left | now right | auto | auto]. }
      subst b. f_equal. apply IH; [exact S2 | |].
      * eapply Permutation_cons_inv. exact P.
      * intros x y Hx Hy. apply Anti; now right.
Qed.

Lemma items_by_escaped_key_order_free (kwargs kwargs' : dict string Atom) :
  NoDup (dict_keys kwargs) -> Permutation kwargs' kwargs ->
  items_by_escaped_key kwargs' = items_by_escaped_key kwargs.
Proof.
  intros ND P.
  apply (sorted_perm_unique escaped_key_le);
    try apply items_by_escaped_key_sorted.
  - now rewrite !items_by_escaped_key_perm.
  - intros x y Hx Hy Hxy Hyx.
    assert (ND' : NoDup (dict_keys kwargs')).
    { eapply Permutation_NoDup; [| exact ND].
      apply Permutation_map. now symmetry. }
    apply (NoDup_keys_In_eq kwargs'); try exact ND'.
    + eapply Permutation_in; [apply items_by_escaped_key_perm | exact Hx].
    + eapply Permutation_in; [apply items_by_escaped_key_perm | exact Hy].
    + apply escaped_key_inj. now apply String.leb_antisym.
Qed.

(** The named parameters are the items, each rendered once, in the order
    of their escaped keys. *)
Lemma filter_kwarg_params_sorted_items (kwargs : dict string Atom) :
  NoDup (dict_keys kwargs) ->
  filter_kwarg_params kwargs
  = map named_param (items_by_escaped_key kwargs).
Proof.
  intro ND. unfold filter_kwarg_params.
  rewrite (filter_out_kwargs_map kwargs ND) at 2.
  unfold dict_keys. rewrite map_map. simpl.
  rewrite sorted_map, map_map.
  apply map_ext_in. intros kv Hin. apply kwarg_param_named; [exact ND |].
  eapply Permutation_in; [apply items_by_escaped_key_perm | exact Hin].
Qed.

Lemma escape_text_clean (text : string) :
  clean text = true -> escape_text text param_chars = text.
Proof.
  induction text as [| c rest IH]; cbn [escape_text clean]; [reflexivity |].
  destruct (char_in c param_chars); cbn [negb andb]; [discriminate |].
  intro Hc. now rewrite IH.
Qed.

Lemma StronglySorted_impl_in {A : Type} (R R' : A -> A -> Prop)
  (l : list A) :
  (forall x y, In x l -> In y l -> R x y -> R' x y) ->
  StronglySorted R l -> StronglySorted R' l.
Proof.
  intros Himpl S. revert Himpl.
  induction S as [| a rest S IH Ha]; intro Himpl; constructor.
  - apply IH. intros x y Hx Hy. apply Himpl; now right.
  - rewrite Forall_forall in *. intros y Hy.
    apply Himpl; [now left | now right | auto].
Qed.

Lemma filter_args_same {E E' : Type} (self self' : Node)
  (outgoing_edges : list E) (outgoing_edges' : list E') :
  name self' = name self -> args self' = args self ->
  List.length outgoing_edges' = List.length outgoing_edges ->
  filter_args self' outgoing_edges' = filter_args self outgoing_edges.
Proof.
  intros Hn Ha Hl. unfold filter_args. now rewrite Hn, Ha, Hl.
Qed.

(** C8 (as the code has it): the descriptor is a function of the node's
    name, parameters and of the fan-out alone; it is the escaped name
    alone when there are no parameters, and otherwise the name, an equals
    sign and the parameters joined by colons, the positional parameters in
    their order first and then the named parameters as [key=value]; the
    named parameters are arranged in the lexicographic order of their
    escaped keys, whatever the order in which they were inserted, and that
    is the order of the keys themselves when no key holds a backslash,
    quote, equals sign or colon. *)
Theorem get_filter_layout {E : Type} (self : Node) (outgoing_edges : list E) :
  NoDup (dict_keys (kwargs self)) ->
  exists items,
    Permutation items (kwargs self)
    /\ StronglySorted escaped_key_le items
    /\ ((forall kv, In kv (kwargs self) -> clean (fst kv) = true) ->
        StronglySorted key_le items)
    /\ _get_filter self outgoing_edges
       = escape_text
           (match (map positional_param (filter_args self outgoing_edges)
                   ++ map named_param items)%list
            with
            | [] => escape_text (name self) param_chars
            | p :: ps =>
                escape_text (name self) param_chars ++ "="
                ++ String.concat ":" (p :: ps)
            end)
           graph_chars
    /\ forall (self' : Node) (outgoing_edges' : list E),
         name self' = name self -> args self' = args self ->
         Permutation (kwargs self') (kwargs self) ->
         List.length outgoing_edges' = List.length outgoing_edges ->
         _get_filter self' outgoing_edges' = _get_filter self outgoing_edges.
Proof.
  intro ND. exists (items_by_escaped_key (kwargs self)).
  split; [apply items_by_escaped_key_perm |].
  split; [apply items_by_escaped_key_sorted |].
  split; [| split].
  - intro Hclean.
    apply (StronglySorted_impl_in escaped_key_le);
      [| apply items_by_escaped_key_sorted].
    intros x y Hx Hy. unfold escaped_key_le, key_le, escaped_key, escape_chars.
    simpl py_str.
    rewrite !escape_text_clean; [auto | |];
      apply Hclean;
      (eapply Permutation_in; [apply items_by_escaped_key_perm | eassumption]).
  - unfold _get_filter.
    rewrite filter_arg_params_map, filter_kwarg_params_sorted_items by exact ND.
    destruct (map positional_param (filter_args self outgoing_edges)
              ++ map named_param (items_by_escaped_key (kwargs self)))%list;
      reflexivity.
  - intros self' outgoing_edges' Hn Ha P Hl. unfold _get_filter.
    assert (ND' : NoDup (dict_keys (kwargs self'))).
    { eapply Permutation_NoDup; [| exact ND].
      apply Permutation_map. now symmetry. }
    rewrite (filter_kwarg_params_sorted_items _ ND).
    rewrite (filter_kwarg_params_sorted_items _ ND').
    rewrite (items_by_escaped_key_order_free _ _ ND P).
    rewrite (filter_args_same self self' outgoing_edges outgoing_edges' Hn Ha Hl).
    now rewrite Hn.
Qed.

Lemma get_filter_layout_witness :
  exists items,
    Permutation items (kwargs sample_scale)
    /\ StronglySorted escaped_key_le items
    /\ ((forall kv, In kv (kwargs sample_scale) -> clean (fst kv) = true) ->
        StronglySorted key_le items)
    /\ _get_filter sample_scale [AInt 0]
       = escape_text
           (match (map positional_param (filter_args sample_scale [AInt 0])
                   ++ map named_param items)%list
            with
            | [] => escape_text (name sample_scale) param_chars
            | p :: ps =>
                escape_text (name sample_scale) param_chars ++ "="
                ++ String.concat ":" (p :: ps)
            end)
           graph_chars
    /\ forall (self' : Node) (outgoing_edges' : list Atom),
         name self' = name sample_scale -> args self' = args sample_scale ->
         Permutation (kwargs self') (kwargs sample_scale) ->
         List.length outgoing_edges' = List.length [AInt 0] ->
         _get_filter self' outgoing_edges' = _get_filter sample_scale [AInt 0].
Proof.
  apply (get_filter_layout sample_scale [AInt 0]).
  simpl. repeat constructor; simpl; intuition discriminate.
Defined.

Example get_filter_scale :
  _get_filter sample_scale [AInt 0] = "scale=640:flags=bicubic:height=480".
Proof. reflexivity. Qed.

Example get_filter_hflip : _get_filter sample_hflip [AInt 0] = "hflip".
Proof. reflexivity. Qed.

(** C8 fails as stated: of the keys [a=] and [aA] the first is the smaller
    one, and the descriptor names [aA] first, because the keys are sorted
    after they were escaped and the backslash put before the equals sign
    is greater than [A]. *)
Lemma get_filter_orders_by_escaped_key :
  dict_keys (kwargs sample_odd_keys) = ["a="; "aA"]
  /\ String.ltb "a=" "aA" = true
  /\ filter_kwarg_params (kwargs sample_odd_keys) = ["aA=2"; "a\==1"]
  /\ _get_filter sample_odd_keys [AInt 0] = "f=aA=2:a\\==1".
Proof. repeat split. Qed.

(* ================================================================== *)
(** ** Streams and the nodes they may start from *)

Lemma is_of_types_iff {O T : Type} (isinstance : O -> T -> bool) (obj : O)
  (types : list T) :
  _is_of_types isinstance obj types = true
  <-> exists t, In t types /\ isinstance obj t = true.
Proof.
  induction types as [| t rest IH]; simpl.
  - split; [discriminate | intros [t [[] _]]].
  - destruct (isinstance obj t) eqn:Ht.
    + split; [intros _; exists t; auto | reflexivity].
    + rewrite IH. split.
      * intros [t' [Hin Ht']]. exists t'. auto.
      * intros [t' [[<- | Hin] Ht']]; [congruence | exists t'; auto].
Qed.

Lemma new_stream_accepting (n : Node) (l sel : Atom) :
  new_stream (accepting_stream_class (node_class n)) n l sel
  = Ok {| stream_class := accepting_stream_class (node_class n);
          node := n; label := l; selector := sel |}.
Proof.
  destruct n as [c nm a kw inc out types lo hi]. destruct c; reflexivity.
Qed.

(** X1: a stream class accepts a node exactly when the node's class is on
    its list, so of the two stream classes exactly one, the one the table
    [accepting_stream_class] names, can be instantiated over a given node;
    the other raises the [TypeError] of [Stream.__init__]. *)
Theorem new_stream_accepts_iff (cls : StreamClass) (n : Node) (l sel : Atom) :
  new_stream cls n l sel
  = if StreamClass_eqb cls (accepting_stream_class (node_class n))
    then Ok {| stream_class := cls; node := n; label := l; selector := sel |}
    else Raise (TypeError ExpectedUpstreamNode).
Proof.
  unfold new_stream, FilterableStream__init__, OutputStream__init__,
    Stream__init__, node_isinstance.
  destruct cls; simpl; destruct (node_class n); reflexivity.
Qed.

Lemma Node__init__fields (cls : NodeClass) (stream_spec : StreamSpec)
  (nm : string) (types : list StreamClass) (out : StreamClass)
  (lo hi : option Z) (a : list Atom) (kw : dict string Atom) (self : Node) :
  Node__init__ cls stream_spec nm types out lo hi a kw = Ok self ->
  node_class self = cls /\ name self = nm /\ args self = a
  /\ kwargs self = kw /\ outgoing_stream_type self = out
  /\ incoming_stream_types self = types
  /\ min_inputs self = lo /\ max_inputs self = hi.
Proof.
  unfold Node__init__.
  destruct (get_stream_map stream_spec) as [m |]; [| discriminate].
  simpl bind.
  destruct (__check_input_len m lo hi) as [[] |]; [| discriminate].
  simpl bind.
  destruct (__check_input_types m types) as [[] |]; [| discriminate].
  simpl bind.
  destruct (__get_incoming_edge_map m) as [inc |]; [| discriminate].
  simpl bind. intro E. inversion E. simpl. repeat split.
Qed.

Lemma variant_built_outgoing (n : Node) :
  variant_built n ->
  outgoing_stream_type n = accepting_stream_class (node_class n).
Proof.
  unfold variant_built, InputNode__init__, FilterNode__init__,
    SourceNode__init__, OutputNode__init__, MergeOutputsNode__init__,
    GlobalNode__init__.
  intros H;
    repeat match goal with
           | H : _ \/ _ |- _ => destruct H as [H | H]
           | H : exists _, _ |- _ => destruct H as [? H]
           end;
    apply Node__init__fields in H as (Hc & _ & _ & _ & Ho & _);
    rewrite Hc, Ho; reflexivity.
Qed.

(** X2: a node built by any of the six variant constructors hands out
    streams without error, through [stream] and through indexing: the
    stream is of the node's outgoing class, refers to the node and carries
    the label and selector asked for ([node[l]] has label [l] and no
    selector, [node[l:s]] label [l] and selector [s]). *)
Theorem variant_stream_never_raises (n : Node) (l sel : Atom) (item : Index) :
  variant_built n ->
  Node_stream n l sel
  = Ok {| stream_class := accepting_stream_class (node_class n);
          node := n; label := l; selector := sel |}
  /\ Node__getitem__ n item
     = Ok {| stream_class := accepting_stream_class (node_class n);
             node := n;
             label := match item with
                      | slice start _ _ => start
                      | index a => a
                      end;
             selector := match item with
                         | slice _ stop _ => stop
                         | index _ => ANone
                         end |}.
Proof.
  intro Hv. apply variant_built_outgoing in Hv.
  assert (G : forall l' sel',
             Node_stream n l' sel'
             = Ok {| stream_class := accepting_stream_class (node_class n);
                     node := n; label := l'; selector := sel' |}).
  { intros l' sel'. unfold Node_stream.
    rewrite Hv. apply new_stream_accepting. }
  split; [apply G |].
  destruct item as [start stop step | a]; simpl; apply G.
Qed.

Lemma variant_stream_never_raises_witness :
  Node_stream sample_output (AInt 0) (AStr "audio")
  = Ok {| stream_class := OutputStream; node := sample_output;
          label := AInt 0; selector := AStr "audio" |}
  /\ Node__getitem__ sample_output (slice (AInt 0) (AStr "audio") ANone)
     = Ok {| stream_class := OutputStream; node := sample_output;
             label := AInt 0; selector := AStr "audio" |}.
Proof.
  apply (variant_stream_never_raises sample_output (AInt 0) (AStr "audio")
           (slice (AInt 0) (AStr "audio") ANone)).
  unfold variant_built. right. right. right. left.
  exists (SpecStream (sample_video "in.mp4")), "output", [], [].
  reflexivity.
Defined.

(* ================================================================== *)
(** ** Stream maps *)

(** X3: a list and a tuple normalise to the same map: the values in
    their order under the keys 0, 1, ..., with as many entries as the
    sequence has items. *)
Theorem get_stream_map_sequence (l : list Value) :
  get_stream_map (SpecList l) = Ok (enumerate l)
  /\ get_stream_map (SpecTuple l) = Ok (enumerate l)
  /\ dict_keys (enumerate l) = positions (List.length l)
  /\ dict_values (enumerate l) = l
  /\ len (enumerate l) = Z.of_nat (List.length l).
Proof.
  simpl. rewrite dict_of_items_enumerate. repeat split.
  - unfold enumerate, positions. change 0 with (Z.of_nat 0).
    apply enumerate_from_keys.
  - apply enumerate_from_values.
  - unfold len, enumerate. now rewrite enumerate_length.
Qed.

Lemma get_stream_map_nodes_loop_spec (values : list Value) :
  forall nodes,
    match get_stream_map_nodes_loop values nodes with
    | Ok ns =>
        exists streams,
          values = map VStream streams /\ ns = nodes ++ map node streams
    | Raise e =>
        e = TypeError ExpectedStream /\ exists a, In (VAtom a) values
    end.
Proof.
  induction values as [| v rest IH]; intro nodes; simpl.
  - exists []. simpl. now rewrite app_nil_r.
  - destruct v as [s | a].
    + specialize (IH (nodes ++ [node s])).
      destruct (get_stream_map_nodes_loop rest (nodes ++ [node s])).
      * destruct IH as [streams [-> ->]]. exists (s :: streams).
        simpl. now rewrite <- app_assoc.
      * destruct IH as [-> [a Ha]]. split; [reflexivity |]. exists a. now right.
    + split; [reflexivity |]. exists a. now left.
Qed.

(** X4: [get_stream_map_nodes] returns the upstream nodes of the values in
    the order of the map when every value is a stream, and raises the
    [TypeError] "Expected Stream" when some value is not one. *)
Theorem get_stream_map_nodes_spec (stream_map : dict Atom Value) :
  match get_stream_map_nodes stream_map with
  | Ok ns =>
      exists streams,
        dict_values stream_map = map VStream streams
        /\ ns = map node streams
  | Raise e =>
      e = TypeError ExpectedStream
      /\ exists a, In (VAtom a) (dict_values stream_map)
  end.
Proof.
  unfold get_stream_map_nodes.
  apply (get_stream_map_nodes_loop_spec (dict_values stream_map) []).
Qed.

Lemma get_stream_map_nodes_streams (stream_map : dict Atom Value)
  (streams : list Stream) :
  dict_values stream_map = map VStream streams ->
  get_stream_map_nodes stream_map = Ok (map node streams).
Proof.
  intro Hv.
  pose proof (get_stream_map_nodes_loop_spec (dict_values stream_map) [])
    as H.
  unfold get_stream_map_nodes.
  destruct (get_stream_map_nodes_loop (dict_values stream_map) [])
    as [ns | e].
  - destruct H as [streams' [Hv' ->]]. rewrite Hv in Hv'.
    f_equal. f_equal.
    clear -Hv'. revert streams' Hv'.
    induction streams as [| s r IH]; intros [| s' r'] E; simpl in *;
      try discriminate; [reflexivity |].
    inversion E. f_equal. auto.
  - destruct H as [_ [a Ha]]. rewrite Hv in Ha.
    apply in_map_iff in Ha as [s [E _]]. discriminate.
Qed.

(** X5: [get_stream_spec_nodes] gives no node for an absent
    specification, the one upstream node for a single stream, the upstream
    nodes in order for a list or tuple of streams, and for a bare integer
    or string the undefined-variable error of the normalisation comes
    through. *)
Theorem get_stream_spec_nodes_shapes (s : Stream) (streams : list Stream)
  (z : Z) (str : string) :
  get_stream_spec_nodes SpecNone = Ok []
  /\ get_stream_spec_nodes (SpecStream s) = Ok [node s]
  /\ get_stream_spec_nodes (SpecList (map VStream streams))
     = Ok (map node streams)
  /\ get_stream_spec_nodes (SpecTuple (map VStream streams))
     = Ok (map node streams)
  /\ get_stream_spec_nodes (SpecInt z) = Raise (UnboundLocalError "stream_map")
  /\ get_stream_spec_nodes (SpecStr str)
     = Raise (UnboundLocalError "stream_map").
Proof.
  assert (G : get_stream_map_nodes (enumerate (map VStream streams))
              = Ok (map node streams)).
  { apply get_stream_map_nodes_streams. apply enumerate_from_values. }
  unfold get_stream_spec_nodes. simpl get_stream_map.
  rewrite dict_of_items_enumerate. simpl bind.
  repeat split; try reflexivity; exact G.
Qed.

(* ================================================================== *)
(** ** The checks of [Node.__init__] *)

Lemma check_input_len_Ok_inv {V : Type} (m : dict Atom V)
  (lo hi : option Z) :
  __check_input_len m lo hi = Ok tt ->
  (forall b, lo = Some b -> b <= len m)
  /\ (forall b, hi = Some b -> len m <= b).
Proof.
  intro Hok. unfold __check_input_len in Hok. split; intros b ->.
  - destruct (len m <? b) eqn:E; [discriminate |].
    apply Z.ltb_ge in E. exact E.
  - destruct lo as [b' |];
      [destruct (len m <? b'); [discriminate |] |];
      (destruct (len m >? b) eqn:E; [discriminate |]);
      rewrite Z.gtb_ltb in E; apply Z.ltb_ge in E; exact E.
Qed.

(** X6: the cardinality check passes exactly when the length of the map
    is not below a given minimum and not above a given maximum; the
    minimum is tested first, so a map that is too short raises "at least"
    whatever the maximum is, and one that is too long raises "at most"
    only when it is not too short. *)
Theorem check_input_len_iff {V : Type} (m : dict Atom V) (lo hi : option Z) :
  (__check_input_len m lo hi = Ok tt
   <-> (forall b, lo = Some b -> b <= len m)
       /\ (forall b, hi = Some b -> len m <= b))
  /\ (forall b, lo = Some b -> len m < b ->
      __check_input_len m lo hi
      = Raise (ValueError (ExpectedAtLeast b (len m))))
  /\ (forall b, hi = Some b -> len m > b ->
      (forall b', lo = Some b' -> b' <= len m) ->
      __check_input_len m lo hi
      = Raise (ValueError (ExpectedAtMost b (len m)))).
Proof.
  split; [split |].
  - apply check_input_len_Ok_inv.
  - intros [Hlo Hhi]. now apply check_input_len_Ok.
  - split.
    + intros b -> Hb. now apply check_input_len_below.
    + intros b -> Hb Hlo. unfold __check_input_len.
      assert (E : (len m >? b) = true) by (apply Z.gtb_lt; lia).
      rewrite E.
      destruct lo as [b' |]; [| reflexivity].
      specialize (Hlo b' eq_refl).
      assert (E' : (len m <? b') = false) by (apply Z.ltb_ge; lia).
      now rewrite E'.
Qed.

Lemma StreamClass_eqb_eq (a b : StreamClass) :
  StreamClass_eqb a b = true <-> a = b.
Proof. destruct a, b; simpl; split; intro E; congruence. Qed.

Lemma value_is_of_types_iff (v : Value) (types : list StreamClass) :
  _is_of_types value_isinstance v types = true
  <-> exists s, v = VStream s /\ In (stream_class s) types.
Proof.
  rewrite is_of_types_iff. split.
  - intros [t [Hin Ht]]. destruct v as [s | a]; [| discriminate].
    simpl in Ht. apply StreamClass_eqb_eq in Ht. subst t. eauto.
  - intros [s [-> Hin]]. exists (stream_class s). split; [exact Hin |].
    simpl. now apply StreamClass_eqb_eq.
Qed.

(** X7: the kind check passes exactly when every value of the map is a
    stream whose class is among the allowed incoming classes; otherwise it
    raises the [TypeError] of the incoming-stream check, and some value of
    the map is not such a stream. *)
Theorem check_input_types_iff (stream_map : dict Atom Value)
  (types : list StreamClass) :
  match __check_input_types stream_map types with
  | Ok _ =>
      forall v, In v (dict_values stream_map) ->
                exists s, v = VStream s /\ In (stream_class s) types
  | Raise e =>
      e = TypeError ExpectedIncomingStream
      /\ exists v, In v (dict_values stream_map)
                   /\ ~ (exists s, v = VStream s /\ In (stream_class s) types)
  end.
Proof.
  unfold __check_input_types.
  induction (dict_values stream_map) as [| x rest IH]; simpl.
  - intros v [].
  - destruct (_is_of_types value_isinstance x types) eqn:Hx; simpl.
    + destruct (check_input_types_loop rest types) as [[] | e].
      * intros v [<- | Hin]; [now apply value_is_of_types_iff | auto].
      * destruct IH as [-> [v [Hin Hbad]]]. split; [reflexivity |].
        exists v. split; [now right | exact Hbad].
    + split; [reflexivity |]. exists x. split; [now left |].
      intro Hs. apply value_is_of_types_iff in Hs. congruence.
Qed.

Lemma check_input_types_items (items : list (Atom * Stream))
  (types : list StreamClass) :
  (forall ks, In ks items -> In (stream_class (snd ks)) types) ->
  __check_input_types (stream_items items) types = Ok tt.
Proof.
  intro Hall. unfold __check_input_types, dict_values, stream_items.
  rewrite map_map. simpl.
  induction items as [| ks rest IH]; simpl; [reflexivity |].
  assert (Hks : _is_of_types value_isinstance (VStream (snd ks)) types = true).
  { apply value_is_of_types_iff. exists (snd ks). split; [reflexivity |].
    apply Hall. now left. }
  rewrite Hks. simpl. apply IH. intros ks' Hin. apply Hall. now right.
Qed.

Lemma get_incoming_edge_map_loop_items (items : list (Atom * Stream)) :
  forall acc,
    NoDup (map fst items) ->
    (forall k, In k (map fst items) -> ~ In k (dict_keys acc)) ->
    get_incoming_edge_map_loop (stream_items items) acc
    = Ok (acc ++ edge_items items).
Proof.
  induction items as [| [k s] rest IH]; intros acc ND Hfresh; simpl.
  - now rewrite app_nil_r.
  - inversion ND as [| ? ? Hnotin ND']; subst.
    rewrite dict_set_fresh by (apply Hfresh; now left).
    rewrite IH; [| exact ND' |].
    + now rewrite <- app_assoc.
    + intros k' Hin. unfold dict_keys. rewrite map_app, in_app_iff.
      intros [Hacc | [<- | []]].
      * apply (Hfresh k'); [now right | exact Hacc].
      * contradiction.
Qed.

(** X8: from a map of streams under pairwise distinct labels,
    [__get_incoming_edge_map] builds the map with the same labels in the
    same order, each stream replaced by its (node, label, selector)
    triple; a value that is not a stream makes it raise on reading
    [upstream.node]. *)
Theorem get_incoming_edge_map_items (items : list (Atom * Stream)) :
  NoDup (map fst items) ->
  __get_incoming_edge_map (stream_items items) = Ok (edge_items items)
  /\ dict_keys (edge_items items) = map fst items
  /\ forall k a,
       __get_incoming_edge_map (stream_items items ++ [(k, VAtom a)])
       = Raise (AttributeError "node").
Proof.
  intro ND. split; [| split].
  - unfold __get_incoming_edge_map.
    now rewrite get_incoming_edge_map_loop_items.
  - unfold dict_keys, edge_items. now rewrite map_map.
  - intros k a. unfold __get_incoming_edge_map. generalize (@nil (Atom * Edge)).
    clear ND. induction items as [| [k' s] rest IH]; intro acc; simpl;
      [reflexivity | apply IH].
Qed.

Lemma get_incoming_edge_map_items_witness :
  __get_incoming_edge_map
    (stream_items [(AStr "main", sample_video "in.mp4");
                   (AStr "logo", sample_video "b.mp4")])
  = Ok (edge_items [(AStr "main", sample_video "in.mp4");
                    (AStr "logo", sample_video "b.mp4")])
  /\ dict_keys (edge_items [(AStr "main", sample_video "in.mp4");
                            (AStr "logo", sample_video "b.mp4")])
     = map fst [(AStr "main", sample_video "in.mp4");
                (AStr "logo", sample_video "b.mp4")]
  /\ forall k a,
       __get_incoming_edge_map
         (stream_items [(AStr "main", sample_video "in.mp4");
                        (AStr "logo", sample_video "b.mp4")]
          ++ [(k, VAtom a)])
       = Raise (AttributeError "node").
Proof.
  apply (get_incoming_edge_map_items
           [(AStr "main", sample_video "in.mp4");
            (AStr "logo", sample_video "b.mp4")]).
  simpl. repeat constructor; simpl; intuition discriminate.
Defined.

(* ================================================================== *)
(** ** Construction *)

(** X9: [Node.__init__] on a specification that normalises to streams
    under distinct labels, whose number is within the bounds and whose
    classes are all allowed, returns the node that stores the name, the
    parameters and the constraints as given and the projected edge map. *)
Theorem node_init_builds (cls : NodeClass) (stream_spec : StreamSpec)
  (items : list (Atom * Stream)) (nm : string) (types : list StreamClass)
  (out : StreamClass) (lo hi : option Z) (a : list Atom)
  (kw : dict string Atom) :
  get_stream_map stream_spec = Ok (stream_items items) ->
  NoDup (map fst items) ->
  (forall b, lo = Some b -> b <= Z.of_nat (List.length items)) ->
  (forall b, hi = Some b -> Z.of_nat (List.length items) <= b) ->
  (forall ks, In ks items -> In (stream_class (snd ks)) types) ->
  Node__init__ cls stream_spec nm types out lo hi a kw
  = Ok {| node_class := cls;
          name := nm;
          args := a;
          kwargs := kw;
          incoming_edge_map := edge_items items;
          outgoing_stream_type := out;
          incoming_stream_types := types;
          min_inputs := lo;
          max_inputs := hi |}.
Proof.
  intros Hm ND Hlo Hhi Hkinds. unfold Node__init__. rewrite Hm. simpl bind.
  rewrite check_input_len_Ok;
    [| unfold len, stream_items; rewrite length_map; exact Hlo
     | unfold len, stream_items; rewrite length_map; exact Hhi].
  simpl bind. rewrite check_input_types_items by exact Hkinds. simpl bind.
  unfold __get_incoming_edge_map.
  rewrite get_incoming_edge_map_loop_items; [reflexivity | exact ND |].
  intros k _ [].
Qed.

Lemma node_init_builds_witness :
  Node__init__ FilterNode
    (SpecDict (stream_items [(AStr "main", sample_video "in.mp4");
                             (AStr "logo", sample_video "b.mp4")]))
    "overlay" [FilterableStream] FilterableStream (Some 1) (Some 2) [] []
  = Ok {| node_class := FilterNode;
          name := "overlay";
          args := [];
          kwargs := [];
          incoming_edge_map :=
            edge_items [(AStr "main", sample_video "in.mp4");
                        (AStr "logo", sample_video "b.mp4")];
          outgoing_stream_type := FilterableStream;
          incoming_stream_types := [FilterableStream];
          min_inputs := Some 1;
          max_inputs := Some 2 |}.
Proof.
  apply (node_init_builds FilterNode
           (SpecDict (stream_items [(AStr "main", sample_video "in.mp4");
                                    (AStr "logo", sample_video "b.mp4")]))
           [(AStr "main", sample_video "in.mp4");
            (AStr "logo", sample_video "b.mp4")]).
  - reflexivity.
  - simpl. repeat constructor; simpl; intuition discriminate.
  - intros b E. inversion E. simpl. lia.
  - intros b E. inversion E. simpl. lia.
  - intros ks [<- | [<- | []]]; simpl; now left.
Defined.

Lemma get_stream_map_NoDup (stream_spec : StreamSpec) (m : dict Atom Value) :
  (forall d, stream_spec <> SpecDict d) ->
  get_stream_map stream_spec = Ok m -> NoDup (dict_keys m).
Proof.
  intros Hshape Hm.
  destruct stream_spec as [| s | l | l | d | z | str]; simpl in Hm;
    inversion Hm; subst.
  - constructor.
  - repeat constructor. intros [].
  - rewrite dict_of_items_enumerate. apply enumerate_from_NoDup.
  - rewrite dict_of_items_enumerate. apply enumerate_from_NoDup.
  - exfalso. eapply Hshape. reflexivity.
Qed.

Lemma get_incoming_edge_map_length (m : dict Atom Value)
  (inc : dict Atom Edge) :
  NoDup (dict_keys m) ->
  __get_incoming_edge_map m = Ok inc -> len inc = len m.
Proof.
  intros ND Hinc.
  apply get_incoming_edge_map_loop_keys in Hinc;
    [| exact ND | intros k _ []].
  simpl in Hinc. unfold len. f_equal.
  rewrite <- (length_map fst inc), <- (length_map fst m).
  fold (dict_keys inc). fold (dict_keys m). now rewrite Hinc.
Qed.

(** X10: a node that [Node.__init__] returns for a specification that is
    absent, one stream or a sequence holds a number of incoming edges
    within its own bounds; so an input or source node has none, a global
    node exactly one, and a filter or merge node at least one. *)
Theorem node_init_within_bounds (cls : NodeClass) (stream_spec : StreamSpec)
  (nm : string) (types : list StreamClass) (out : StreamClass)
  (lo hi : option Z) (a : list Atom) (kw : dict string Atom) (self : Node) :
  (forall d, stream_spec <> SpecDict d) ->
  Node__init__ cls stream_spec nm types out lo hi a kw = Ok self ->
  within_bounds self
  /\ (lo = Some 0 -> hi = Some 0 -> incoming_edge_map self = [])
  /\ (lo = Some 1 -> hi = Some 1 ->
      exists k e, incoming_edge_map self = [(k, e)])
  /\ (lo = Some 1 -> incoming_edge_map self <> []).
Proof.
  intros Hshape Hinit.
  assert (Hb : within_bounds self /\ min_inputs self = lo
               /\ max_inputs self = hi).
  { unfold Node__init__ in Hinit.
    destruct (get_stream_map stream_spec) as [m |] eqn:Hm; [| discriminate].
    simpl bind in Hinit.
    destruct (__check_input_len m lo hi) as [[] |] eqn:Hlen; [| discriminate].
    simpl bind in Hinit.
    destruct (__check_input_types m types) as [[] |]; [| discriminate].
    simpl bind in Hinit.
    destruct (__get_incoming_edge_map m) as [inc |] eqn:Hinc; [| discriminate].
    simpl bind in Hinit. inversion Hinit; subst; clear Hinit.
    unfold within_bounds. cbn [incoming_edge_map min_inputs max_inputs].
    pose proof (get_incoming_edge_map_length m inc
                  (get_stream_map_NoDup _ _ Hshape Hm) Hinc) as Hl.
    unfold Edge in *. rewrite Hl.
    split; [| split; reflexivity].
    now apply check_input_len_Ok_inv. }
  destruct Hb as [[Hlo Hhi] [Emin Emax]]. rewrite Emin in Hlo.
  rewrite Emax in Hhi.
  split; [split; [now rewrite Emin | now rewrite Emax] |].
  unfold len in *. repeat split.
  - intros -> ->. specialize (Hhi 0 eq_refl).
    destruct (incoming_edge_map self); [reflexivity | simpl in Hhi; lia].
  - intros -> ->. specialize (Hhi 1 eq_refl). specialize (Hlo 1 eq_refl).
    destruct (incoming_edge_map self) as [| [k e] [| x r]];
      simpl in *; try lia. eauto.
  - intros -> E. specialize (Hlo 1 eq_refl). rewrite E in Hlo.
    simpl in Hlo. lia.
Qed.

Lemma node_init_within_bounds_witness :
  within_bounds sample_hflip
  /\ (Some 1 = Some 0 -> FilterNode_default_max_inputs = Some 0 ->
      incoming_edge_map sample_hflip = [])
  /\ (Some 1 = Some 1 -> FilterNode_default_max_inputs = Some 1 ->
      exists k e, incoming_edge_map sample_hflip = [(k, e)])
  /\ (Some 1 = Some 1 -> incoming_edge_map sample_hflip <> []).
Proof.
  apply (node_init_within_bounds FilterNode
           (SpecStream (sample_video "in.mp4")) "hflip" [FilterableStream]
           FilterableStream (Some 1) FilterNode_default_max_inputs [] []
           sample_hflip).
  - intros d E. discriminate E.
  - reflexivity.
Defined.

(* ================================================================== *)
(** ** Attaching streams: further properties *)

Lemma with_incoming_edge_map_same (self : Node) :
  with_incoming_edge_map self (incoming_edge_map self) = self.
Proof. destruct self. reflexivity. Qed.

Lemma with_incoming_edge_map_twice (self : Node) (d d' : dict Atom Edge) :
  with_incoming_edge_map (with_incoming_edge_map self d) d'
  = with_incoming_edge_map self d'.
Proof. reflexivity. Qed.

(** What a successful call went through. *)
Lemma add_streams_inv (stream_spec : StreamSpec) (self self' : Node) :
  _add_streams stream_spec self = (Ok tt, self') ->
  exists new_stream_map new_inc,
    get_stream_map stream_spec = Ok new_stream_map
    /\ __check_input_types new_stream_map (incoming_stream_types self) = Ok tt
    /\ __get_incoming_edge_map new_stream_map = Ok new_inc
    /\ (forall b, min_inputs self = Some b ->
                  b <= len (incoming_edge_map self) + len new_inc)
    /\ (forall b, max_inputs self = Some b ->
                  len (incoming_edge_map self) + len new_inc <= b)
    /\ self'
       = with_incoming_edge_map self
           (dict_update
              (if dict_mem ANone (incoming_edge_map self)
               then dict_pop (incoming_edge_map self) ANone
               else incoming_edge_map self)
              (enumerate (dict_values (incoming_edge_map self)
                          ++ dict_values new_inc))).
Proof.
  method_steps.
  destruct (get_stream_map stream_spec) as [new_stream_map |] eqn:Hmap;
    [| discriminate].
  destruct (__check_input_types new_stream_map (incoming_stream_types self))
    as [[] |] eqn:Htypes; [| discriminate].
  destruct (__get_incoming_edge_map new_stream_map) as [new_inc |] eqn:Hinc;
    [| discriminate].
  rewrite dict_of_items_enumerate.
  destruct (__check_input_len _ (min_inputs self) (max_inputs self))
    as [[] |] eqn:Hlen; [| discriminate].
  apply check_input_len_Ok_inv in Hlen.
  destruct Hlen as [Hlo Hhi].
  rewrite len_enumerate_app in Hlo, Hhi.
  unfold dict_values in Hlo, Hhi. rewrite !length_map in Hlo, Hhi.
  intro E. exists new_stream_map, new_inc. unfold len.
  repeat (split; [first [reflexivity | assumption] |]).
  destruct (dict_mem ANone (incoming_edge_map self));
    inversion E; reflexivity.
Qed.

(** X11: whatever [_add_streams] is given and however it ends, it leaves
    the node's class, name, parameters, stream classes and bounds alone:
    only the incoming edge map can change. *)
Theorem add_streams_frame (stream_spec : StreamSpec) (self self' : Node)
  (r : Result unit) :
  _add_streams stream_spec self = (r, self') ->
  self' = with_incoming_edge_map self (incoming_edge_map self').
Proof.
  destruct r as [[] | e]; intro Hrun.
  - apply add_streams_inv in Hrun as (m & inc & _ & _ & _ & _ & _ & ->).
    reflexivity.
  - apply add_streams_raise_unchanged in Hrun. subst.
    symmetry. apply with_incoming_edge_map_same.
Qed.

Lemma add_streams_frame_witness :
  snd (_add_streams (SpecList [VStream (sample_video "b.mp4")]) sample_output)
  = with_incoming_edge_map sample_output
      (incoming_edge_map
         (snd (_add_streams (SpecList [VStream (sample_video "b.mp4")])
                 sample_output))).
Proof.
  apply (add_streams_frame (SpecList [VStream (sample_video "b.mp4")])
           sample_output _ (Ok tt)).
  reflexivity.
Defined.

(** X12: a successful attach keeps a node well formed: when the stored
    map had the positions as keys, or only the unlabeled entry, the new
    map has the positions as keys, holds no unlabeled entry, and its
    length is within the node's bounds. *)
Theorem add_streams_keeps_well_formed (stream_spec : StreamSpec)
  (self self' : Node) :
  positional_or_unlabeled (incoming_edge_map self) ->
  _add_streams stream_spec self = (Ok tt, self') ->
  incoming_edge_map self' = enumerate (dict_values (incoming_edge_map self'))
  /\ dict_mem ANone (incoming_edge_map self') = false
  /\ within_bounds self'.
Proof.
  intros Hshape Hrun.
  apply add_streams_inv in Hrun
    as (m & inc & _ & _ & _ & Hlo & Hhi & ->).
  pose proof (merge_positional _ (dict_values inc) Hshape) as Hmerge.
  unfold within_bounds.
  cbn [with_incoming_edge_map incoming_edge_map min_inputs max_inputs].
  unfold Edge in *. rewrite Hmerge.
  split; [| split].
  - unfold enumerate. now rewrite enumerate_from_values.
  - apply enumerate_no_None.
  - rewrite len_enumerate_app. unfold dict_values, len in *.
    rewrite !length_map. split; assumption.
Qed.

Lemma add_streams_keeps_well_formed_witness :
  incoming_edge_map
    (with_incoming_edge_map sample_output (enumerate [edge_in; edge_b]))
  = enumerate
      (dict_values
         (incoming_edge_map
            (with_incoming_edge_map sample_output
               (enumerate [edge_in; edge_b]))))
  /\ dict_mem ANone
       (incoming_edge_map
          (with_incoming_edge_map sample_output (enumerate [edge_in; edge_b])))
     = false
  /\ within_bounds
       (with_incoming_edge_map sample_output (enumerate [edge_in; edge_b])).
Proof.
  apply (add_streams_keeps_well_formed
           (SpecList [VStream (sample_video "b.mp4")]) sample_output).
  - right. exists edge_in. reflexivity.
  - reflexivity.
Defined.

Lemma check_input_types_nil (m : dict Atom Value) :
  __check_input_types m [] = Ok tt -> m = [].
Proof.
  destruct m as [| [k v] rest]; [reflexivity |].
  unfold __check_input_types. simpl. discriminate.
Qed.

(** X13: an input node and a source node never get an incoming edge: any
    call of [_add_streams] on them, successful (only attaching nothing is)
    or not, leaves the edge map empty. *)
Theorem add_streams_input_source (n n' : Node) (stream_spec : StreamSpec)
  (r : Result unit) :
  (exists nm a kw, InputNode__init__ nm a kw = Ok n
                   \/ SourceNode__init__ nm a kw = Ok n) ->
  _add_streams stream_spec n = (r, n') ->
  incoming_edge_map n' = []
  /\ (r = Ok tt -> exists m, get_stream_map stream_spec = Ok m /\ m = []).
Proof.
  intros (nm & a & kw & Hn) Hrun.
  assert (Hfields : incoming_edge_map n = [] /\ incoming_stream_types n = []).
  { destruct Hn as [Hn | Hn]; inversion Hn; split; reflexivity. }
  destruct Hfields as [Hmap Htypes].
  destruct r as [[] | e].
  - apply add_streams_inv in Hrun
      as (m & inc & Hm & Hcheck & Hinc & _ & _ & ->).
    rewrite Htypes in Hcheck. apply check_input_types_nil in Hcheck. subst m.
    inversion Hinc; subst. cbn [with_incoming_edge_map incoming_edge_map].
    rewrite Hmap. split; [reflexivity |]. intros _. eauto.
  - apply add_streams_raise_unchanged in Hrun. subst n'.
    split; [exact Hmap | discriminate].
Qed.

Lemma add_streams_input_source_witness :
  incoming_edge_map
    (snd (_add_streams (SpecStream (sample_video "b.mp4"))
            (sample_input "in.mp4")))
  = []
  /\ (fst (_add_streams (SpecStream (sample_video "b.mp4"))
             (sample_input "in.mp4"))
      = Ok tt ->
      exists m,
        get_stream_map (SpecStream (sample_video "b.mp4")) = Ok m /\ m = []).
Proof.
  apply (add_streams_input_source (sample_input "in.mp4") _
           (SpecStream (sample_video "b.mp4")) _).
  - exists "input", [], [("filename", AStr "in.mp4")]. left. reflexivity.
  - reflexivity.
Defined.

(** *** Attaching a list of streams *)

Lemma enumerate_from_map {A B : Type} (f : A -> B) (l : list A) (i : Z) :
  enumerate_from i (map f l)
  = map (fun kx => (fst kx, f (snd kx))) (enumerate_from i l).
Proof.
  revert i. induction l as [| x rest IH]; intro i; simpl; [reflexivity |].
  now rewrite IH.
Qed.

Lemma enumerate_streams (streams : list Stream) :
  enumerate (map VStream streams) = stream_items (enumerate streams)
  /\ enumerate (map edge_of streams) = edge_items (enumerate streams).
Proof. unfold enumerate. now rewrite !enumerate_from_map. Qed.

Lemma get_incoming_edge_map_streams (streams : list Stream) :
  __get_incoming_edge_map (enumerate (map VStream streams))
  = Ok (enumerate (map edge_of streams)).
Proof.
  destruct (enumerate_streams streams) as [-> ->].
  unfold __get_incoming_edge_map.
  rewrite get_incoming_edge_map_loop_items; [reflexivity | | intros k _ []].
  apply (enumerate_from_NoDup streams 0).
Qed.

Lemma check_input_types_streams (streams : list Stream)
  (types : list StreamClass) :
  __check_input_types (enumerate (map VStream streams)) types = Ok tt
  <-> Forall (fun s => In (stream_class s) types) streams.
Proof.
  unfold __check_input_types, enumerate. rewrite enumerate_from_values.
  induction streams as [| s rest IH]; simpl.
  - split; auto.
  - destruct (_is_of_types value_isinstance (VStream s) types) eqn:Hs; simpl.
    + apply value_is_of_types_iff in Hs as [s' [E Hin]]. inversion E; subst s'.
      rewrite IH. split; [intro H; now constructor | intro H; now inversion H].
    + split; [discriminate |]. intro H. inversion H as [| ? ? Hin _]; subst.
      assert (Hs' : _is_of_types value_isinstance (VStream s) types = true)
        by (apply value_is_of_types_iff; eauto).
      congruence.
Qed.

(** Attaching a list of allowed streams within the bounds. *)
Lemma add_streams_list (streams : list Stream) (self : Node) :
  positional_or_unlabeled (incoming_edge_map self) ->
  Forall (fun s => In (stream_class s) (incoming_stream_types self)) streams ->
  (forall b, min_inputs self = Some b ->
             b <= len (incoming_edge_map self)
                  + Z.of_nat (List.length streams)) ->
  (forall b, max_inputs self = Some b ->
             len (incoming_edge_map self)
             + Z.of_nat (List.length streams) <= b) ->
  _add_streams (SpecList (map VStream streams)) self
  = (Ok tt,
     with_incoming_edge_map self
       (enumerate (dict_values (incoming_edge_map self)
                   ++ map edge_of streams))).
Proof.
  intros Hshape Hkinds Hlo Hhi.
  assert (Hlen : len (enumerate (map edge_of streams))
                 = Z.of_nat (List.length streams)).
  { unfold len, enumerate. now rewrite enumerate_length, length_map. }
  rewrite (add_streams_Ok _ self (enumerate (map VStream streams))
             (enumerate (map edge_of streams))).
  - assert (Hv : dict_values (enumerate (map edge_of streams))
                 = map edge_of streams)
      by (unfold enumerate; apply enumerate_from_values).
    rewrite Hv. f_equal. f_equal.
    apply (merge_positional _ (map edge_of streams) Hshape).
  - simpl. now rewrite dict_of_items_enumerate.
  - now apply check_input_types_streams.
  - apply get_incoming_edge_map_streams.
  - intros b Hb. rewrite Hlen. auto.
  - intros b Hb. rewrite Hlen. auto.
Qed.

Lemma add_streams_list_inv (streams : list Stream) (self self' : Node) :
  _add_streams (SpecList (map VStream streams)) self = (Ok tt, self') ->
  Forall (fun s => In (stream_class s) (incoming_stream_types self)) streams
  /\ (forall b, min_inputs self = Some b ->
                b <= len (incoming_edge_map self)
                     + Z.of_nat (List.length streams))
  /\ (forall b, max_inputs self = Some b ->
                len (incoming_edge_map self)
                + Z.of_nat (List.length streams) <= b).
Proof.
  intro Hrun.
  apply add_streams_inv in Hrun
    as (m & inc & Hm & Htypes & Hinc & Hlo & Hhi & _).
  simpl in Hm. rewrite dict_of_items_enumerate in Hm. inversion Hm; subst m.
  rewrite get_incoming_edge_map_streams in Hinc. inversion Hinc; subst inc.
  assert (Hlen : len (enumerate (map edge_of streams))
                 = Z.of_nat (List.length streams)).
  { unfold len, enumerate. now rewrite enumerate_length, length_map. }
  rewrite Hlen in Hlo, Hhi.
  split; [now apply check_input_types_streams | split; assumption].
Qed.

(** X14: streams can be mapped onto an output node afterwards: on an
    output node constructed from an absent specification, one stream or a
    sequence, attaching any list of processable streams succeeds and
    stores the old edges followed by the new ones under the positions. *)
Theorem add_streams_output_node (stream_spec : StreamSpec) (nm : string)
  (a : list Atom) (kw : dict string Atom) (n : Node)
  (streams : list Stream) :
  (forall d, stream_spec <> SpecDict d) ->
  OutputNode__init__ stream_spec nm a kw = Ok n ->
  Forall (fun s => stream_class s = FilterableStream) streams ->
  _add_streams (SpecList (map VStream streams)) n
  = (Ok tt,
     with_incoming_edge_map n
       (enumerate (dict_values (incoming_edge_map n) ++ map edge_of streams))).
Proof.
  intros Hshape Hinit Hkinds. unfold OutputNode__init__ in Hinit.
  pose proof (init_positional_or_unlabeled _ _ _ _ _ _ _ _ _ _ Hshape Hinit)
    as Hpos.
  apply Node__init__fields in Hinit
    as (_ & _ & _ & _ & _ & Htypes & Hmin & Hmax).
  apply add_streams_list; [exact Hpos | | |].
  - rewrite Htypes. eapply Forall_impl; [| exact Hkinds].
    intros s ->. now left.
  - rewrite Hmin. intros b E. inversion E.
    pose proof (len_nonneg (incoming_edge_map n)). lia.
  - rewrite Hmax. discriminate.
Qed.

Lemma add_streams_output_node_witness :
  _add_streams (SpecList (map VStream sample_streams)) sample_output
  = (Ok tt,
     with_incoming_edge_map sample_output
       (enumerate (dict_values (incoming_edge_map sample_output)
                   ++ map edge_of sample_streams))).
Proof.
  apply (add_streams_output_node (SpecStream (sample_video "in.mp4"))
           "output" [] [] sample_output sample_streams).
  - intros d E. discriminate E.
  - reflexivity.
  - repeat constructor.
Defined.

(** X15: attaching composes: on a node whose map has the positions as
    keys, or only the unlabeled entry, attaching a list of streams and
    then a second list, both successfully, leaves the node in the state
    that attaching the two lists at once gives, and that call succeeds
    too. *)
Theorem add_streams_compose (self s1 s2 : Node) (a b : list Stream) :
  positional_or_unlabeled (incoming_edge_map self) ->
  _add_streams (SpecList (map VStream a)) self = (Ok tt, s1) ->
  _add_streams (SpecList (map VStream b)) s1 = (Ok tt, s2) ->
  _add_streams (SpecList (map VStream (a ++ b))) self = (Ok tt, s2)
  /\ incoming_edge_map s2
     = enumerate (dict_values (incoming_edge_map self)
                  ++ map edge_of a ++ map edge_of b).
Proof.
  intros Hshape Hfirst Hsecond.
  destruct (add_streams_list_inv _ _ _ Hfirst) as (Ka & Loa & Hia).
  rewrite (add_streams_list a self Hshape Ka Loa Hia) in Hfirst.
  inversion Hfirst; subst s1; clear Hfirst.
  set (s1 := with_incoming_edge_map self
               (enumerate (dict_values (incoming_edge_map self)
                           ++ map edge_of a))) in *.
  destruct (add_streams_list_inv _ _ _ Hsecond) as (Kb & Lob & Hib).
  assert (Hshape1 : positional_or_unlabeled (incoming_edge_map s1)).
  { left. unfold s1. cbn [with_incoming_edge_map incoming_edge_map].
    unfold enumerate. now rewrite enumerate_from_values. }
  rewrite (add_streams_list b s1 Hshape1 Kb Lob Hib) in Hsecond.
  inversion Hsecond; subst s2; clear Hsecond.
  unfold s1 in *.
  cbn [with_incoming_edge_map incoming_edge_map incoming_stream_types
         min_inputs max_inputs] in *.
  assert (Hvals : dict_values (enumerate (dict_values (incoming_edge_map self)
                                          ++ map edge_of a))
                  = dict_values (incoming_edge_map self) ++ map edge_of a).
  { unfold enumerate. apply enumerate_from_values. }
  rewrite Hvals, <- app_assoc.
  split; [| reflexivity].
  rewrite len_enumerate_app in Lob, Hib.
  unfold len, dict_values in *. rewrite !length_map in Lob, Hib.
  rewrite (add_streams_list (a ++ b) self Hshape).
  - now rewrite map_app.
  - apply Forall_app. split; assumption.
  - intros x Hx. specialize (Lob x Hx). rewrite length_app.
    unfold len. lia.
  - intros x Hx. specialize (Hib x Hx). rewrite length_app.
    unfold len. lia.
Qed.

Lemma add_streams_compose_witness :
  _add_streams
    (SpecList (map VStream ([sample_video "a.mp4"] ++ [sample_video "b.mp4"])))
    sample_output
  = (Ok tt,
     with_incoming_edge_map sample_output
       (enumerate [edge_in; edge_of (sample_video "a.mp4");
                   edge_of (sample_video "b.mp4")]))
  /\ incoming_edge_map
       (with_incoming_edge_map sample_output
          (enumerate [edge_in; edge_of (sample_video "a.mp4");
                      edge_of (sample_video "b.mp4")]))
     = enumerate (dict_values (incoming_edge_map sample_output)
                  ++ map edge_of [sample_video "a.mp4"]
                  ++ map edge_of [sample_video "b.mp4"]).
Proof.
  apply (add_streams_compose sample_output
           (with_incoming_edge_map sample_output
              (enumerate [edge_in; edge_of (sample_video "a.mp4")]))
           _ [sample_video "a.mp4"] [sample_video "b.mp4"]).
  - right. exists edge_in. reflexivity.
  - reflexivity.
  - reflexivity.
Defined.

(** X16: attaching nothing (an absent specification or an empty list) to
    a node within its bounds succeeds and stores the same edges under the
    positions: a map that has the positions as keys is left as it is, and
    a sole unlabeled entry is renamed to position 0. *)
Theorem add_streams_nothing (self : Node) (stream_spec : StreamSpec) :
  stream_spec = SpecNone \/ stream_spec = SpecList [] ->
  positional_or_unlabeled (incoming_edge_map self) ->
  within_bounds self ->
  _add_streams stream_spec self
  = (Ok tt,
     with_incoming_edge_map self
       (enumerate (dict_values (incoming_edge_map self))))
  /\ (incoming_edge_map self = enumerate (dict_values (incoming_edge_map self))
      -> _add_streams stream_spec self = (Ok tt, self))
  /\ (forall e, incoming_edge_map self = [(ANone, e)] ->
      incoming_edge_map (snd (_add_streams stream_spec self))
      = [(AInt 0, e)]).
Proof.
  intros Hspec Hshape [Hlo Hhi].
  assert (Hrun : _add_streams stream_spec self
                 = (Ok tt,
                    with_incoming_edge_map self
                      (enumerate (dict_values (incoming_edge_map self))))).
  { rewrite (add_streams_Ok stream_spec self [] []).
    - f_equal. f_equal. simpl dict_values.
      pose proof (merge_positional _ [] Hshape) as Hmerge.
      unfold Edge in *. rewrite Hmerge. now rewrite app_nil_r.
    - destruct Hspec as [-> | ->]; reflexivity.
    - reflexivity.
    - reflexivity.
    - intros b Hb. specialize (Hlo b Hb). unfold len in *. simpl. lia.
    - intros b Hb. specialize (Hhi b Hb). unfold len in *. simpl. lia. }
  split; [exact Hrun | split].
  - intro Hpos. rewrite Hrun, <- Hpos.
    now rewrite with_incoming_edge_map_same.
  - intros e He. rewrite Hrun, He. reflexivity.
Qed.

Lemma add_streams_nothing_witness :
  _add_streams SpecNone sample_output
  = (Ok tt,
     with_incoming_edge_map sample_output
       (enumerate (dict_values (incoming_edge_map sample_output))))
  /\ (incoming_edge_map sample_output
      = enumerate (dict_values (incoming_edge_map sample_output))
      -> _add_streams SpecNone sample_output = (Ok tt, sample_output))
  /\ (forall e, incoming_edge_map sample_output = [(ANone, e)] ->
      incoming_edge_map (snd (_add_streams SpecNone sample_output))
      = [(AInt 0, e)]).
Proof.
  apply (add_streams_nothing sample_output SpecNone).
  - left. reflexivity.
  - right. exists edge_in. reflexivity.
  - split; intros b E; [inversion E; vm_compute; discriminate | discriminate E].
Defined.

(** *** A node that is full *)

Lemma dict_set_length {K V : Type} `{PyKey K} (d : dict K V) (k : K) (v : V) :
  (List.length d <= List.length (dict_set d k v))%nat
  /\ (1 <= List.length (dict_set d k v))%nat.
Proof.
  induction d as [| [k' v'] rest [IH1 IH2]]; simpl; [lia |].
  destruct (key_eqb k k'); simpl; lia.
Qed.

Lemma get_incoming_edge_map_loop_total (items : list (Atom * Value)) :
  forall acc,
    (forall v, In v (dict_values items) -> exists s, v = VStream s) ->
    exists inc,
      get_incoming_edge_map_loop items acc = Ok inc
      /\ (List.length acc <= List.length inc)%nat
      /\ (items <> [] -> 1 <= List.length inc)%nat.
Proof.
  induction items as [| [k v] rest IH]; intros acc Hall; simpl.
  - exists acc. repeat split; [lia | congruence].
  - destruct (Hall v) as [s ->]; [now left |].
    destruct (IH (dict_set acc k (node s, label s, selector s)))
      as (inc & Hloop & Hge & _).
    { intros v Hv. apply Hall. now right. }
    exists inc. split; [exact Hloop |].
    pose proof (dict_set_length acc k (node s, label s, selector s)) as [L1 L2].
    split; [lia | intros _; lia].
Qed.

(** After the kind check the edge projection cannot fail. *)
Lemma get_incoming_edge_map_after_check (m : dict Atom Value)
  (types : list StreamClass) :
  __check_input_types m types = Ok tt ->
  exists inc,
    __get_incoming_edge_map m = Ok inc
    /\ (m <> [] -> 1 <= List.length inc)%nat.
Proof.
  intro Hcheck. unfold __check_input_types in Hcheck.
  destruct (get_incoming_edge_map_loop_total m []) as (inc & Hloop & _ & Hne).
  - intros v Hv.
    apply (check_input_types_loop_Ok _ _ Hcheck) in Hv.
    now apply is_of_types_stream in Hv.
  - exists inc. split; assumption.
Qed.

Lemma node_init_bounds (cls : NodeClass) (stream_spec : StreamSpec)
  (nm : string) (types : list StreamClass) (out : StreamClass)
  (lo hi : option Z) (a : list Atom) (kw : dict string Atom) (self : Node) :
  (forall d, stream_spec <> SpecDict d) ->
  Node__init__ cls stream_spec nm types out lo hi a kw = Ok self ->
  (forall b, lo = Some b -> b <= len (incoming_edge_map self))
  /\ (forall b, hi = Some b -> len (incoming_edge_map self) <= b).
Proof.
  intros Hshape Hinit. unfold Node__init__ in Hinit.
  destruct (get_stream_map stream_spec) as [m |] eqn:Hm; [| discriminate].
  simpl bind in Hinit.
  destruct (__check_input_len m lo hi) as [[] |] eqn:Hlen; [| discriminate].
  simpl bind in Hinit.
  destruct (__check_input_types m types) as [[] |]; [| discriminate].
  simpl bind in Hinit.
  destruct (__get_incoming_edge_map m) as [inc |] eqn:Hinc; [| discriminate].
  simpl bind in Hinit. inversion Hinit; subst; clear Hinit.
  cbn [incoming_edge_map].
  pose proof (get_incoming_edge_map_length m inc
                (get_stream_map_NoDup _ _ Hshape Hm) Hinc) as Hl.
  unfold Edge in *. rewrite Hl.
  unfold __check_input_len in Hlen. split; intros b ->.
  - destruct (len m <? b) eqn:E; [discriminate |].
    apply Z.ltb_ge in E. exact E.
  - destruct lo as [b' |];
      [destruct (len m <? b'); [discriminate |] |];
      (destruct (len m >? b) eqn:E; [discriminate |]);
      rewrite Z.gtb_ltb in E; apply Z.ltb_ge in E; exact E.
Qed.

(** A node constructed with the bounds 1 and 1 stores exactly one edge,
    whatever shape the specification had. *)
Lemma node_init_one_edge (cls : NodeClass) (stream_spec : StreamSpec)
  (nm : string) (types : list StreamClass) (out : StreamClass)
  (a : list Atom) (kw : dict string Atom) (self : Node) :
  Node__init__ cls stream_spec nm types out (Some 1) (Some 1) a kw = Ok self ->
  len (incoming_edge_map self) = 1.
Proof.
  unfold Node__init__.
  destruct (get_stream_map stream_spec) as [m |]; [| discriminate].
  cbn [bind].
  destruct (__check_input_len m (Some 1) (Some 1)) as [[] |] eqn:Hlen;
    [| discriminate].
  apply check_input_len_Ok_inv in Hlen. destruct Hlen as [Hlo Hhi].
  specialize (Hlo 1 eq_refl). specialize (Hhi 1 eq_refl).
  unfold len in Hlo, Hhi.
  destruct m as [| [k v] [| x rest]]; simpl in Hlo, Hhi; try lia.
  cbn [bind].
  destruct (__check_input_types [(k, v)] types) as [[] |]; [| discriminate].
  cbn [bind]. unfold __get_incoming_edge_map. simpl.
  destruct v as [s | at0]; simpl; [| discriminate].
  intro E. inversion E. reflexivity.
Qed.

(** X17: a filter node constructed with the default maximum of one
    input is full: every later attach of a specification that normalises
    to at least one entry raises (the type mismatch of the kind check, or
    else the "at most 1" arity error) and leaves the node as it was. *)
Theorem add_streams_default_filter_full (stream_spec0 : StreamSpec)
  (nm : string) (a : list Atom) (kw : dict string Atom) (n : Node)
  (stream_spec : StreamSpec) (m : dict Atom Value) :
  FilterNode__init__ stream_spec0 nm FilterNode_default_max_inputs a kw
  = Ok n ->
  get_stream_map stream_spec = Ok m ->
  m <> [] ->
  exists e,
    _add_streams stream_spec n = (Raise e, n)
    /\ (e = TypeError ExpectedIncomingStream
        \/ exists got, 2 <= got /\ e = ValueError (ExpectedAtMost 1 got)).
Proof.
  intros Hinit Hm Hne.
  unfold FilterNode__init__, FilterNode_default_max_inputs in Hinit.
  pose proof (node_init_one_edge _ _ _ _ _ _ _ _ Hinit) as Hone.
  apply Node__init__fields in Hinit
    as (_ & _ & _ & _ & _ & Htypes & Hmin & Hmax).
  method_steps. rewrite Hm.
  destruct (__check_input_types m (incoming_stream_types n))
    as [[] | e0] eqn:Hcheck.
  - destruct (get_incoming_edge_map_after_check _ _ Hcheck)
      as (inc & Hinc & Hlen).
    specialize (Hlen Hne). rewrite Hinc, dict_of_items_enumerate.
    rewrite Hmin, Hmax. unfold __check_input_len.
    rewrite len_enumerate_app. unfold dict_values. rewrite !length_map.
    unfold len in Hone.
    assert (E1 : (Z.of_nat (List.length (incoming_edge_map n))
                  + Z.of_nat (List.length inc) <? 1) = false)
      by (apply Z.ltb_ge; lia).
    assert (E2 : (Z.of_nat (List.length (incoming_edge_map n))
                  + Z.of_nat (List.length inc) >? 1) = true)
      by (apply Z.gtb_lt; lia).
    rewrite E1, E2. eexists. split; [reflexivity |]. right.
    eexists. split; [| reflexivity]. lia.
  - unfold __check_input_types in Hcheck.
    apply check_input_types_loop_raises in Hcheck. subst e0.
    eexists. split; [reflexivity |]. now left.
Qed.

Lemma add_streams_default_filter_full_witness :
  exists e,
    _add_streams (SpecStream (sample_video "b.mp4")) sample_named_full
    = (Raise e, sample_named_full)
    /\ (e = TypeError ExpectedIncomingStream
        \/ exists got, 2 <= got /\ e = ValueError (ExpectedAtMost 1 got)).
Proof.
  apply (add_streams_default_filter_full
           (SpecDict [(AStr "main", VStream (sample_video "in.mp4"))])
           "overlay" [] [] sample_named_full
           (SpecStream (sample_video "b.mp4"))
           [(ANone, VStream (sample_video "b.mp4"))]).
  - reflexivity.
  - reflexivity.
  - discriminate.
Defined.

(** *** The stored map as a finite map *)

Section DictLookup.
Context {K V : Type} `{PyKeyLaws K}.

Lemma dict_get_set (d : dict K V) (k k' : K) (v : V) :
  dict_get (dict_set d k v) k'
  = if key_eqb k' k then Some v else dict_get d k'.
Proof.
  induction d as [| [k0 v0] rest IH]; simpl.
  - reflexivity.
  - destruct (key_eqb k k0) eqn:E; simpl.
    + apply key_eqb_eq in E. subst k0.
      destruct (key_eqb k' k); reflexivity.
    + destruct (key_eqb k' k0) eqn:E0; [| exact IH].
      apply key_eqb_eq in E0. subst k0.
      destruct (key_eqb k' k) eqn:E1; [| reflexivity].
      apply key_eqb_eq in E1. subst k'. rewrite key_eqb_refl in E.
      discriminate.
Qed.

Lemma dict_get_update (items d : dict K V) (k : K) :
  NoDup (dict_keys items) ->
  dict_get (dict_update d items) k
  = match dict_get items k with
    | Some v => Some v
    | None => dict_get d k
    end.
Proof.
  revert d. induction items as [| [k0 v0] rest IH]; intros d ND;
    [reflexivity |].
  inversion ND as [| ? ? Hnotin ND']; subst.
  change (dict_update d ((k0, v0) :: rest))
    with (dict_update (dict_set d k0 v0) rest).
  rewrite IH by exact ND'. simpl. rewrite dict_get_set.
  destruct (key_eqb k k0) eqn:E; [| reflexivity].
  apply key_eqb_eq in E. subst k0.
  apply dict_get_None in Hnotin. now rewrite Hnotin.
Qed.

Lemma dict_pop_keys_In (d : dict K V) (k k' : K) :
  In k' (dict_keys (dict_pop d k)) -> In k' (dict_keys d).
Proof.
  induction d as [| [k0 v0] rest IH]; simpl; [auto |].
  destruct (key_eqb k k0); simpl; [now right |].
  intros [-> | Hin]; [now left | right; auto].
Qed.

Lemma dict_pop_NoDup (d : dict K V) (k : K) :
  NoDup (dict_keys d) -> NoDup (dict_keys (dict_pop d k)).
Proof.
  induction d as [| [k0 v0] rest IH]; simpl; [auto |].
  intro ND. inversion ND as [| ? ? Hnotin ND']; subst.
  destruct (key_eqb k k0); simpl; [exact ND' |].
  constructor; [| auto]. intro Hin. apply Hnotin.
  eapply dict_pop_keys_In. exact Hin.
Qed.

Lemma dict_get_pop (d : dict K V) (k k' : K) :
  NoDup (dict_keys d) ->
  dict_get (dict_pop d k) k'
  = if key_eqb k' k then None else dict_get d k'.
Proof.
  induction d as [| [k0 v0] rest IH]; simpl; intro ND.
  - destruct (key_eqb k' k); reflexivity.
  - inversion ND as [| ? ? Hnotin ND']; subst.
    destruct (key_eqb k k0) eqn:E; simpl.
    + apply key_eqb_eq in E. subst k0.
      destruct (key_eqb k' k) eqn:E'; [| reflexivity].
      apply key_eqb_eq in E'. subst k'. now apply dict_get_None.
    + rewrite IH by exact ND'.
      destruct (key_eqb k' k0) eqn:E0; [| reflexivity].
      apply key_eqb_eq in E0. subst k0.
      destruct (key_eqb k' k) eqn:E1; [| reflexivity].
      apply key_eqb_eq in E1. subst k'. rewrite key_eqb_refl in E.
      discriminate.
Qed.

Lemma dict_set_keys_In (d : dict K V) (k k' : K) (v : V) :
  In k' (dict_keys (dict_set d k v)) <-> k' = k \/ In k' (dict_keys d).
Proof.
  induction d as [| [k0 v0] rest IH]; simpl.
  - split; [intros [<- | []]; now left | intros [-> | []]; now left].
  - destruct (key_eqb k k0) eqn:E; simpl.
    + apply key_eqb_eq in E. subst k0. intuition.
    + rewrite IH. intuition.
Qed.

Lemma dict_set_NoDup (d : dict K V) (k : K) (v : V) :
  NoDup (dict_keys d) -> NoDup (dict_keys (dict_set d k v)).
Proof.
  induction d as [| [k0 v0] rest IH]; simpl; intro ND.
  - repeat constructor. intros [].
  - inversion ND as [| ? ? Hnotin ND']; subst.
    destruct (key_eqb k k0) eqn:E; simpl; [exact ND |].
    constructor; [| auto]. rewrite dict_set_keys_In.
    intros [-> | Hin]; [| contradiction].
    rewrite key_eqb_refl in E. discriminate.
Qed.

Lemma dict_update_NoDup (items d : dict K V) :
  NoDup (dict_keys d) -> NoDup (dict_keys (dict_update d items)).
Proof.
  revert d. induction items as [| [k0 v0] rest IH]; intros d ND; [exact ND |].
  change (dict_update d ((k0, v0) :: rest))
    with (dict_update (dict_set d k0 v0) rest).
  apply IH. now apply dict_set_NoDup.
Qed.

End DictLookup.

Lemma dict_get_enumerate_from {V : Type} (l : list V) (j : Z) (i : nat) :
  dict_get (enumerate_from j l) (AInt (j + Z.of_nat i)) = nth_error l i.
Proof.
  revert j i. induction l as [| x rest IH]; intros j i; simpl.
  - destruct i; reflexivity.
  - unfold key_eqb, PyKey_Atom. simpl. destruct i as [| i]; simpl.
    + rewrite Z.add_0_r, Z.eqb_refl. reflexivity.
    + assert (E : (j + Z.pos (Pos.of_succ_nat i) =? j) = false)
        by (apply Z.eqb_neq; lia).
      rewrite E.
      replace (j + Z.pos (Pos.of_succ_nat i)) with (j + 1 + Z.of_nat i) by lia.
      apply IH.
Qed.

Lemma dict_get_enumerate_other {V : Type} (l : list V) (k : Atom) :
  (forall z, k <> AInt z) -> dict_get (enumerate l) k = None.
Proof.
  intro Hk. apply dict_get_None. intro Hin.
  apply enumerate_from_keys_ge in Hin as [j [E _]]. now apply (Hk j).
Qed.

(** X18: after a successful attach on a node whose map has pairwise
    distinct keys, whatever they are, every existing and every new edge is
    found under its position, the existing ones first; the unlabeled key
    is gone; an entry under a caller-chosen name is still found under that
    name; and the keys are still pairwise distinct. *)
Theorem add_streams_lookup (stream_spec : StreamSpec) (self self' : Node) :
  NoDup (dict_keys (incoming_edge_map self)) ->
  _add_streams stream_spec self = (Ok tt, self') ->
  exists new_stream_map new_inc,
    get_stream_map stream_spec = Ok new_stream_map
    /\ __get_incoming_edge_map new_stream_map = Ok new_inc
    /\ (forall i,
          (i < List.length (incoming_edge_map self) + List.length new_inc)%nat ->
          dict_get (incoming_edge_map self') (AInt (Z.of_nat i))
          = nth_error (dict_values (incoming_edge_map self)
                       ++ dict_values new_inc) i)
    /\ dict_get (incoming_edge_map self') ANone = None
    /\ (forall s, dict_get (incoming_edge_map self') (AStr s)
                  = dict_get (incoming_edge_map self) (AStr s))
    /\ NoDup (dict_keys (incoming_edge_map self')).
Proof.
  intros ND Hrun.
  apply add_streams_inv in Hrun
    as (m & inc & Hm & _ & Hinc & _ & _ & ->).
  exists m, inc. split; [exact Hm |]. split; [exact Hinc |].
  cbn [with_incoming_edge_map incoming_edge_map].
  set (old := incoming_edge_map self) in *.
  set (all := dict_values old ++ dict_values inc).
  set (base := if dict_mem ANone old then dict_pop old ANone else old).
  assert (NDbase : NoDup (dict_keys base)).
  { unfold base. destruct (dict_mem ANone old); [| exact ND].
    now apply dict_pop_NoDup. }
  assert (Hbase : forall k,
             dict_get base k = if is_None k then None else dict_get old k).
  { intro k. unfold base. destruct (dict_mem ANone old) eqn:Hmem.
    - rewrite dict_get_pop by exact ND.
      unfold key_eqb, PyKey_Atom. destruct k; reflexivity.
    - destruct k; try reflexivity. simpl.
      unfold dict_mem in Hmem. destruct (dict_get old ANone); congruence. }
  assert (Hget : forall k,
             dict_get (dict_update base (enumerate all)) k
             = match dict_get (enumerate all) k with
               | Some e => Some e
               | None => dict_get base k
               end).
  { intro k. apply dict_get_update. apply enumerate_from_NoDup. }
  repeat split.
  - intros i Hi. rewrite Hget.
    change (AInt (Z.of_nat i)) with (AInt (0 + Z.of_nat i)).
    unfold enumerate. rewrite dict_get_enumerate_from.
    destruct (nth_error all i) eqn:E; [reflexivity |].
    apply nth_error_None in E. unfold all, dict_values in E.
    rewrite length_app, !length_map in E. unfold old in *.
    unfold Edge in *. lia.
  - rewrite Hget, dict_get_enumerate_other by discriminate.
    now rewrite Hbase.
  - intro s. rewrite Hget, dict_get_enumerate_other by discriminate.
    now rewrite Hbase.
  - now apply dict_update_NoDup.
Qed.

Lemma add_streams_lookup_witness :
  exists new_stream_map new_inc,
    get_stream_map (SpecStream (sample_video "b.mp4")) = Ok new_stream_map
    /\ __get_incoming_edge_map new_stream_map = Ok new_inc
    /\ (forall i,
          (i < List.length (incoming_edge_map sample_overlay)
               + List.length new_inc)%nat ->
          dict_get
            (incoming_edge_map
               (snd (_add_streams (SpecStream (sample_video "b.mp4"))
                       sample_overlay)))
            (AInt (Z.of_nat i))
          = nth_error (dict_values (incoming_edge_map sample_overlay)
                       ++ dict_values new_inc) i)
    /\ dict_get
         (incoming_edge_map
            (snd (_add_streams (SpecStream (sample_video "b.mp4"))
                    sample_overlay)))
         ANone
       = None
    /\ (forall s,
          dict_get
            (incoming_edge_map
               (snd (_add_streams (SpecStream (sample_video "b.mp4"))
                       sample_overlay)))
            (AStr s)
          = dict_get (incoming_edge_map sample_overlay) (AStr s))
    /\ NoDup
         (dict_keys
            (incoming_edge_map
               (snd (_add_streams (SpecStream (sample_video "b.mp4"))
                       sample_overlay)))).
Proof.
  apply (add_streams_lookup (SpecStream (sample_video "b.mp4"))
           sample_overlay).
  - simpl. repeat constructor. intros [].
  - reflexivity.
Defined.

(* ================================================================== *)
(** ** Filter descriptors: further properties *)

(** X19: on a node whose operation name is neither [split] nor [asplit]
    the outgoing edges play no part: the positional parameters are the
    node's own and the descriptor is the same for every list of outgoing
    edges. *)
Theorem get_filter_ignores_fan_out {E E' : Type} (self : Node)
  (outgoing_edges : list E) (outgoing_edges' : list E') :
  name self <> "split" -> name self <> "asplit" ->
  filter_args self outgoing_edges = args self
  /\ _get_filter self outgoing_edges = _get_filter self outgoing_edges'.
Proof.
  intros H1 H2.
  assert (G : forall (X : Type) (edges : list X),
             filter_args self edges = args self).
  { intros X edges. unfold filter_args.
    destruct (String.eqb (name self) "split") eqn:E1;
      [apply String.eqb_eq in E1; contradiction |].
    destruct (String.eqb (name self) "asplit") eqn:E2;
      [apply String.eqb_eq in E2; contradiction |].
    reflexivity. }
  split; [apply G |]. unfold _get_filter. now rewrite !G.
Qed.

Lemma get_filter_ignores_fan_out_witness :
  filter_args sample_scale [AInt 0] = args sample_scale
  /\ _get_filter sample_scale [AInt 0]
     = _get_filter sample_scale [AInt 0; AInt 1; AInt 2].
Proof.
  apply (get_filter_ignores_fan_out sample_scale [AInt 0]
           [AInt 0; AInt 1; AInt 2]); discriminate.
Defined.

(** X20: no named parameter is lost or merged with another: when the
    keys are pairwise distinct, the rendered named parameters are the
    renderings [key=value] of the items, each one once, in some order. *)
Theorem get_filter_keeps_named_params (kwargs : dict string Atom) :
  NoDup (dict_keys kwargs) ->
  Permutation (filter_kwarg_params kwargs) (map named_param kwargs)
  /\ List.length (filter_kwarg_params kwargs) = List.length kwargs.
Proof.
  intro ND. rewrite filter_kwarg_params_sorted_items by exact ND.
  split.
  - apply Permutation_map, items_by_escaped_key_perm.
  - rewrite length_map. apply Permutation_length, items_by_escaped_key_perm.
Qed.

Lemma get_filter_keeps_named_params_witness :
  Permutation (filter_kwarg_params (kwargs sample_odd_keys))
    (map named_param (kwargs sample_odd_keys))
  /\ List.length (filter_kwarg_params (kwargs sample_odd_keys))
     = List.length (kwargs sample_odd_keys).
Proof.
  apply (get_filter_keeps_named_params (kwargs sample_odd_keys)).
  simpl. repeat constructor; simpl; intuition discriminate.
Defined.

Lemma escape_text_unescaped_free (chars text : string) :
  char_in "\" chars = true ->
  unescaped_free chars false (escape_text text chars) = true.
Proof.
  intro Hb. induction text as [| c rest IH]; [reflexivity |].
  cbn [escape_text]. destruct (char_in c chars) eqn:Hc.
  - cbn [unescaped_free]. rewrite Ascii.eqb_refl. exact IH.
  - cbn [unescaped_free].
    destruct (Ascii.eqb c "\") eqn:Ec.
    + apply Ascii.eqb_eq in Ec. subst c. congruence.
    + rewrite Hc. exact IH.
Qed.

(** X21: the descriptor is safe to embed in the graph syntax: in what
    [_get_filter] returns, no quote, bracket, comma or semicolon stands
    without a backslash before it and the text does not end in a lone
    backslash; likewise no quote, equals sign or colon stands unescaped
    inside a rendered positional parameter. *)
Theorem get_filter_well_escaped {E : Type} (self : Node)
  (outgoing_edges : list E) :
  unescaped_free graph_chars false (_get_filter self outgoing_edges) = true
  /\ Forall (fun p => unescaped_free param_chars false p = true)
       (filter_arg_params (filter_args self outgoing_edges)).
Proof.
  split.
  - unfold _get_filter, escape_chars.
    now apply escape_text_unescaped_free.
  - rewrite filter_arg_params_map. apply Forall_forall. intros p Hp.
    apply in_map_iff in Hp as [x [<- _]]. unfold positional_param, escape_chars.
    now apply escape_text_unescaped_free.
Qed.

(* ================================================================== *)
(** ** Short display form *)

Lemma basename_no_slash (p : string) :
  char_in "/" p = false -> basename p = p.
Proof.
  destruct p as [| c rest]; [reflexivity |].
  cbn [basename char_in]. rewrite (Ascii.eqb_sym "/" c).
  destruct (Ascii.eqb c "/"); [discriminate |]. intros ->. reflexivity.
Qed.

Lemma char_in_app (c : ascii) (s t : string) :
  char_in c (s ++ t) = char_in c s || char_in c t.
Proof.
  induction s as [| a s IH]; simpl; [reflexivity |].
  destruct (Ascii.eqb c a); [reflexivity | exact IH].
Qed.

Lemma basename_join (dir file : string) :
  char_in "/" file = false ->
  basename (dir ++ "/" ++ file) = file.
Proof.
  intro Hf. induction dir as [| c rest IH].
  - change ("" ++ "/" ++ file)%string with (String "/" file).
    cbn [basename]. rewrite Ascii.eqb_refl. now apply basename_no_slash.
  - change (String c rest ++ "/" ++ file)%string
      with (String c (rest ++ "/" ++ file)).
    cbn [basename]. destruct (Ascii.eqb c "/"); [exact IH |].
    rewrite char_in_app. change ("/" ++ file)%string with (String "/" file).
    cbn [char_in]. rewrite Ascii.eqb_refl, orb_true_r. exact IH.
Qed.

Lemma basename_slash_free (p : string) : char_in "/" (basename p) = false.
Proof.
  induction p as [| c rest IH]; [reflexivity |].
  cbn [basename]. destruct (Ascii.eqb c "/") eqn:Ec; [exact IH |].
  destruct (char_in "/" rest) eqn:Hr; [exact IH |].
  cbn [char_in]. rewrite Ascii.eqb_sym, Ec. exact Hr.
Qed.

(** X22: the short display form of an input or output node is the file
    name without its directories: for a [filename] parameter that is a
    directory path, a slash and a name without slash it is that name, it
    never holds a slash, and a node without a [filename] parameter raises
    [KeyError]. *)
Theorem short_repr_basename (self : Node) (dir file : string) :
  char_in "/" file = false ->
  (dict_get (kwargs self) "filename" = Some (AStr (dir ++ "/" ++ file)) ->
   short_repr self = Repr file)
  /\ (dict_get (kwargs self) "filename" = Some (AStr file) ->
      short_repr self = Repr file)
  /\ (dict_get (kwargs self) "filename" = None ->
      short_repr self = KeyError "filename")
  /\ (forall text, short_repr self = Repr text -> char_in "/" text = false).
Proof.
  intro Hf. unfold short_repr. repeat split.
  - intros ->. now rewrite basename_join.
  - intros ->. now rewrite basename_no_slash.
  - intros ->. reflexivity.
  - intros text.
    destruct (dict_get (kwargs self) "filename") as [[| z | path] |];
      try discriminate.
    intro E. inversion E. apply basename_slash_free.
Qed.

Lemma short_repr_basename_witness :
  (dict_get (kwargs (sample_input "clips/day1/in.mp4")) "filename"
   = Some (AStr ("clips/day1" ++ "/" ++ "in.mp4")) ->
   short_repr (sample_input "clips/day1/in.mp4") = Repr "in.mp4")
  /\ (dict_get (kwargs (sample_input "clips/day1/in.mp4")) "filename"
      = Some (AStr "in.mp4") ->
      short_repr (sample_input "clips/day1/in.mp4") = Repr "in.mp4")
  /\ (dict_get (kwargs (sample_input "clips/day1/in.mp4")) "filename" = None ->
      short_repr (sample_input "clips/day1/in.mp4") = KeyError "filename")
  /\ (forall text,
        short_repr (sample_input "clips/day1/in.mp4") = Repr text ->
        char_in "/" text = false).
Proof.
  apply (short_repr_basename (sample_input "clips/day1/in.mp4")
           "clips/day1" "in.mp4").
  reflexivity.
Defined.

Example short_repr_sample :
  short_repr (sample_input "clips/day1/in.mp4") = Repr "in.mp4"
  /\ short_repr sample_output = KeyError "filename".
Proof. split; reflexivity. Qed.

(* ================================================================== *)
(** ** Operator registration *)

Section OperatorFacts.
Variable Func : Type.
Variable __name__ : Func -> string.

Lemma OperatorClass_eqb_eq (a b : OperatorClass) :
  OperatorClass_eqb a b = true <-> a = b.
Proof.
  destruct a as [| x], b as [| y]; simpl; split; intro E;
    try discriminate; try reflexivity.
  - apply StreamClass_eqb_eq in E. now subst.
  - inversion E. now apply StreamClass_eqb_eq.
Qed.

(** What the loop over [stream_classes] leaves in each class. *)
Lemma setattr_loop (classes : list OperatorClass) (nm : string) (f : Func)
  (attrs : ClassAttrs Func) (c : OperatorClass) (n : string) :
  dict_get
    (fold_left (fun a cls => setattr a cls nm f) classes attrs c) n
  = if existsb (OperatorClass_eqb c) classes && String.eqb n nm
    then Some f
    else dict_get (attrs c) n.
Proof.
  revert attrs. induction classes as [| cls rest IH]; intro attrs; simpl;
    [reflexivity |].
  rewrite IH. unfold setattr.
  destruct (existsb (OperatorClass_eqb c) rest) eqn:Hrest; simpl.
  - rewrite orb_true_r. simpl.
    destruct (String.eqb n nm) eqn:En; [reflexivity |].
    destruct (OperatorClass_eqb c cls); [| reflexivity].
    rewrite dict_get_set. unfold key_eqb, PyKey_string. now rewrite En.
  - rewrite orb_false_r.
    destruct (OperatorClass_eqb c cls); simpl; [| reflexivity].
    rewrite dict_get_set. unfold key_eqb, PyKey_string.
    destruct (String.eqb n nm); reflexivity.
Qed.

(** X23: the decorator returns the function it was given, and afterwards
    every class it was told to extend resolves the operator's name (the
    given name, or the function's own name when none or an empty one was
    given) to that function, whatever was registered under it before. *)
Theorem stream_operator_registers (classes : list OperatorClass)
  (nm : option string) (f : Func) (attrs : ClassAttrs Func)
  (c : OperatorClass) :
  In c classes ->
  fst (stream_operator __name__ classes nm f attrs) = f
  /\ getattr (snd (stream_operator __name__ classes nm f attrs)) c
       (operator_name __name__ nm f)
     = Some f
  /\ operator_name __name__ None f = __name__ f
  /\ operator_name __name__ (Some "") f = __name__ f.
Proof.
  intro Hin. split; [reflexivity |]. split; [| split; reflexivity].
  unfold stream_operator, getattr, operator_name. cbn [snd].
  rewrite setattr_loop.
  assert (Hex : existsb (OperatorClass_eqb c) classes = true).
  { apply existsb_exists. exists c. split; [exact Hin |].
    now apply OperatorClass_eqb_eq. }
  rewrite Hex, String.eqb_refl. reflexivity.
Qed.

(** X24: registering a filter operator changes nothing that an output
    stream or the base class resolves, and on processable streams only
    the operator's own name; an output operator likewise leaves
    processable streams and the base class alone. *)
Theorem filter_output_operators_separate (nm : option string) (f : Func)
  (attrs : ClassAttrs Func) (n : string) :
  getattr (snd (filter_operator __name__ nm f attrs)) (StreamSub OutputStream) n
  = getattr attrs (StreamSub OutputStream) n
  /\ getattr (snd (filter_operator __name__ nm f attrs)) StreamBase n
     = getattr attrs StreamBase n
  /\ getattr (snd (output_operator __name__ nm f attrs))
       (StreamSub FilterableStream) n
     = getattr attrs (StreamSub FilterableStream) n
  /\ getattr (snd (output_operator __name__ nm f attrs)) StreamBase n
     = getattr attrs StreamBase n
  /\ (n <> operator_name __name__ nm f ->
      getattr (snd (filter_operator __name__ nm f attrs))
        (StreamSub FilterableStream) n
      = getattr attrs (StreamSub FilterableStream) n).
Proof.
  unfold filter_operator, output_operator, stream_operator, getattr.
  cbn [snd]. rewrite !setattr_loop. simpl existsb. simpl andb.
  repeat split.
  intro Hn. fold (operator_name __name__ nm f).
  assert (E : String.eqb n (operator_name __name__ nm f) = false)
    by (now apply String.eqb_neq).
  now rewrite E.
Qed.

(** X25: an operator registered on the base class (the default) is seen
    from both stream classes, except from a class that has an attribute
    of that name of its own, which keeps resolving to its own. *)
Theorem base_operator_inherited (nm : option string) (f : Func)
  (attrs : ClassAttrs Func) (c : StreamClass) :
  getattr
    (snd (stream_operator __name__ stream_operator_default_classes nm f attrs))
    (StreamSub c) (operator_name __name__ nm f)
  = match dict_get (attrs (StreamSub c)) (operator_name __name__ nm f) with
    | Some own => Some own
    | None => Some f
    end.
Proof.
  unfold stream_operator_default_classes, stream_operator, getattr.
  cbn [snd]. rewrite !setattr_loop. fold (operator_name __name__ nm f).
  simpl existsb. simpl andb. rewrite String.eqb_refl. reflexivity.
Qed.

End OperatorFacts.

Lemma stream_operator_registers_witness :
  fst (stream_operator (fun f : string => f)
         [StreamSub FilterableStream; StreamSub OutputStream] None "hflip"
         (fun _ => []))
  = "hflip"
  /\ getattr
       (snd (stream_operator (fun f : string => f)
               [StreamSub FilterableStream; StreamSub OutputStream] None
               "hflip" (fun _ => [])))
       (StreamSub OutputStream)
       (operator_name (fun f : string => f) None "hflip")
     = Some "hflip"
  /\ operator_name (fun f : string => f) None "hflip" = "hflip"
  /\ operator_name (fun f : string => f) (Some "") "hflip" = "hflip".
Proof.
  apply (stream_operator_registers string (fun f => f)
           [StreamSub FilterableStream; StreamSub OutputStream] None "hflip"
           (fun _ => []) (StreamSub OutputStream)).
  simpl. right. left. reflexivity.
Defined.
